(** * osdbinfos: the OpenSubtitles client, embedded in Rocq

    A shallow embedding of [src/osdbinfos/osdbinfos.py]: the file
    fingerprint ([get_hash]), the session token life cycle
    ([is_token_expired], [register]), the reply decoder ([_parse_dict]) and
    the two remote operations ([get_infos], [insert_movie_hash]) together
    with [get_files_infos].

    Conventions of the model:
    - Python [str] values are Rocq strings of 8-bit characters (code points
      below 256); floats do not occur in the modelled values.
    - A Python [dict] is an association list in insertion order, keyed by
      the hashable values ([None], [bool], [int], [str]).
    - [datetime] values are integers counting microseconds; a [timedelta]
      is a number of microseconds.
    - Exceptions are values of type [exn]; a computation either returns or
      raises, and the mutations made before a raise stay visible.
    - Logging is not modelled. *)

From Stdlib Require Import ZArith List String Ascii Bool Lia.
From Stdlib.Strings Require Import Byte.
Import ListNotations.

Local Open Scope Z_scope.

(* ================================================================== *)
(** * Strings, the way the Python code uses them *)

Module PyStr.

Local Open Scope string_scope.

(** [str.isspace] on one character, for code points below 256. *)
Definition is_space (c : ascii) : bool :=
  let n := nat_of_ascii c in
  ((9 <=? n) && (n <=? 13) || (28 <=? n) && (n <=? 32)
   || (n =? 133) || (n =? 160))%nat.

Fixpoint lstrip (s : string) : string :=
  match s with
  | String c s' => if is_space c then lstrip s' else s
  | EmptyString => EmptyString
  end.

Fixpoint rstrip (s : string) : string :=
  match s with
  | String c s' =>
      match rstrip s' with
      | EmptyString => if is_space c then EmptyString else String c EmptyString
      | r => String c r
      end
  | EmptyString => EmptyString
  end.

(** [s.strip()] *)
Definition strip (s : string) : string := rstrip (lstrip s).

(** [s.split(sep)] for a separator of one character: every occurrence
    cuts, empty pieces are kept, the result is never empty. *)
Fixpoint split (sep : ascii) (s : string) : list string :=
  match s with
  | EmptyString => [EmptyString]
  | String c s' =>
      if Ascii.eqb c sep then EmptyString :: split sep s'
      else match split sep s' with
           | p :: ps => String c p :: ps
           | [] => [String c EmptyString]
           end
  end.

(** [s.startswith(p)] *)
Definition startswith (p s : string) : bool := String.prefix p s.

(** [sub in s] *)
Fixpoint contains (sub s : string) : bool :=
  String.prefix sub s
  || match s with
     | String _ s' => contains sub s'
     | EmptyString => false
     end.

(** [s.replace(old, new)] for a non-empty [old]: the occurrences are
    found from the left and do not overlap.  [skip] counts the characters
    of the current occurrence still to drop. *)
Fixpoint replace_from (old new : string) (skip : nat) (s : string) : string :=
  match s with
  | EmptyString => EmptyString
  | String c s' =>
      match skip with
      | S k => replace_from old new k s'
      | O =>
          if String.prefix old s
          then new ++ replace_from old new (String.length old - 1) s'
          else String c (replace_from old new O s')
      end
  end.

(** With an empty [old], Python puts [new] before every character and at
    the end. *)
Fixpoint interleave (new s : string) : string :=
  match s with
  | EmptyString => new
  | String c s' => new ++ String c (interleave new s')
  end.

Definition replace (old new s : string) : string :=
  match old with
  | EmptyString => interleave new s
  | _ => replace_from old new O s
  end.

Fixpoint repeat_char (c : ascii) (n : nat) : string :=
  match n with
  | O => EmptyString
  | S n' => String c (repeat_char c n')
  end.

(** [s.rjust(width, fill)] *)
Definition rjust (width : nat) (fill : ascii) (s : string) : string :=
  repeat_char fill (width - String.length s) ++ s.

(** The digit of [d] in base sixteen, lower case. *)
Definition hex_digit (d : Z) : ascii :=
  if (d <? 10)%Z then ascii_of_nat (Z.to_nat (48 + d))
  else ascii_of_nat (Z.to_nat (87 + d)).

Fixpoint hex_aux (fuel : nat) (n : Z) (acc : string) : string :=
  match fuel with
  | O => acc
  | S fuel' =>
      let acc' := String (hex_digit (n mod 16)) acc in
      if (n / 16 =? 0)%Z then acc' else hex_aux fuel' (n / 16) acc'
  end.

(** ["%x" % n] for [0 <= n]: the fuel exceeds the number of digits. *)
Definition hex (n : Z) : string :=
  hex_aux (S (Z.to_nat (Z.log2 n))) n EmptyString.

(** ["%016x" % n]: at least sixteen characters, zeros on the left, the
    sign first. *)
Definition format_016x (n : Z) : string :=
  if (n <? 0)%Z then String "-" (rjust 15 "0" (hex (- n)))
  else rjust 16 "0" (hex n).

Definition is_lower_hex (c : ascii) : bool :=
  let n := nat_of_ascii c in
  ((48 <=? n) && (n <=? 57) || (97 <=? n) && (n <=? 102))%nat.

Fixpoint forallb_string (p : ascii -> bool) (s : string) : bool :=
  match s with
  | EmptyString => true
  | String c s' => p c && forallb_string p s'
  end.

(** The value of a string of hexadecimal digits, [None] on any other
    character. *)
Definition hex_digit_value (c : ascii) : option Z :=
  let n := Z.of_nat (nat_of_ascii c) in
  if ((48 <=? n) && (n <=? 57))%Z then Some (n - 48)
  else if ((97 <=? n) && (n <=? 102))%Z then Some (n - 87)
  else None.

Fixpoint hex_value_from (acc : Z) (s : string) : option Z :=
  match s with
  | EmptyString => Some acc
  | String c s' =>
      match hex_digit_value c with
      | Some d => hex_value_from (16 * acc + d) s'
      | None => None
      end
  end.

Definition hex_value (s : string) : option Z := hex_value_from 0 s.

End PyStr.


Local Open Scope string_scope.
Local Open Scope Z_scope.

(** The double quote character, on which [_parse_dict] cuts a title. *)
Definition dquote : ascii := ascii_of_nat 34.

(* ================================================================== *)
(** * Python values and exceptions *)

(** The hashable values: what a [dict] can be keyed by. *)
Inductive pykey : Type :=
| KNone
| KBool (b : bool)
| KInt (n : Z)
| KStr (s : string).

(** The exception classes the module declares (lines 43-107). *)
Inductive os_class : Type :=
| OpenSutitlesError
| OpenSutitlesTimeoutError
| OpenSutitlesInvalidSizeError
| OpenSutitlesServiceUnavailable
| OpenSutitlesInvalidParam
| OpenSutitlesNetworkError
| UnauthorizedOpenSutitlesError
| MandatoryParameterMissing
| NoSessionOpenSubtitlesError
| DownloadLimitReachedOpenSutitleError
| InvalidParametersOpenSutitlesError
| MethodNotFoundOpenSutitlesError
| UnknownOpenSubtitlesError
| InvalidUserAgentOpenSubtitlesError
| DisabledUserAgentOpenSubtitlesError
| InvalidResultOpenSutitlesError.

(** Exceptions: the built-in ones the code can meet, the transport's
    ([socket.timeout], [xmlrpclib.ProtocolError], [socket.error], anything
    else) and the module's own, with the argument they are built from. *)
Inductive exn : Type :=
| KeyError (k : pykey)
| TypeError
| ValueError
| IndexError
| AttributeError
| UnboundLocalError
| StructError
| SocketTimeout
| ProtocolError (errcode : Z)
| SocketError (msg : string)
| OtherError (msg : string)
| Osdb (c : os_class) (a : exn_arg)
with exn_arg : Type :=
| NoArg
| Msg (s : string)
| Exc (e : exn)
| StrOf (e : exn).

#[warning="-register-all"]
Inductive pyval : Type :=
| PNone
| PBool (b : bool)
| PInt (n : Z)
| PStr (s : string)
| PList (l : list pyval)
| PDict (d : list (pykey * pyval))
| PExc (e : exn).

(** A computation returns a value or raises. *)
Inductive outcome (A : Type) : Type :=
| Return (a : A)
| Raise (e : exn).
Arguments Return {A} a.
Arguments Raise {A} e.

Definition rbind {A B} (c : outcome A) (k : A -> outcome B) : outcome B :=
  match c with
  | Return a => k a
  | Raise e => Raise e
  end.

Notation "'let?' x ':=' c 'in' k" := (rbind c (fun x => k))
  (at level 10, x pattern, c at level 100, k at level 200).

(* ------------------------------------------------------------------ *)
(** ** Dictionaries *)

Module Dict.

(** [True == 1] and [False == 0], with equal hashes: as keys they are
    the same. *)
Definition norm (k : pykey) : pykey :=
  match k with
  | KBool b => KInt (if b then 1 else 0)
  | _ => k
  end.

Definition raw_eqb (a b : pykey) : bool :=
  match a, b with
  | KNone, KNone => true
  | KBool x, KBool y => Bool.eqb x y
  | KInt x, KInt y => x =? y
  | KStr x, KStr y => String.eqb x y
  | _, _ => false
  end.

Definition key_eqb (a b : pykey) : bool := raw_eqb (norm a) (norm b).

Section Ops.
Context {V : Type}.

(** [d.get(k)], [None] when the key is missing. *)
Fixpoint get (k : pykey) (d : list (pykey * V)) : option V :=
  match d with
  | [] => None
  | (k', v) :: d' => if key_eqb k k' then Some v else get k d'
  end.

(** [d[k] = v]: an existing key keeps its place (and its key object),
    a new key goes last. *)
Fixpoint set (k : pykey) (v : V) (d : list (pykey * V)) : list (pykey * V) :=
  match d with
  | [] => [(k, v)]
  | (k', v') :: d' =>
      if key_eqb k k' then (k', v) :: d' else (k', v') :: set k v d'
  end.

(** [k in d] *)
Definition mem (k : pykey) (d : list (pykey * V)) : bool :=
  match get k d with Some _ => true | None => false end.

(** [list(d)], the keys in insertion order. *)
Definition keys (d : list (pykey * V)) : list pykey := map fst d.

(** [{k: v for (k, v) in kvs}], starting from [d]. *)
Definition update (d : list (pykey * V)) (kvs : list (pykey * V))
  : list (pykey * V) :=
  fold_left (fun acc kv => set (fst kv) (snd kv) acc) kvs d.

Definition of_list (kvs : list (pykey * V)) : list (pykey * V) :=
  update [] kvs.

(** The value of the last pair of [kvs] whose key equals [k]: what a
    comprehension over [kvs] binds [k] to. *)
Fixpoint last_binding (k : pykey) (kvs : list (pykey * V)) : option V :=
  match kvs with
  | [] => None
  | (k', v) :: kvs' =>
      match last_binding k kvs' with
      | Some w => Some w
      | None => if key_eqb k k' then Some v else None
      end
  end.
End Ops.

End Dict.

(* ------------------------------------------------------------------ *)
(** ** The operations of Python the code applies to reply values *)

Module Py.

(** Truth value of an object. *)
Definition truthy (v : pyval) : bool :=
  match v with
  | PNone => false
  | PBool b => b
  | PInt n => negb (n =? 0)
  | PStr s => negb (String.eqb s EmptyString)
  | PList l => match l with [] => false | _ => true end
  | PDict d => match d with [] => false | _ => true end
  | PExc _ => true
  end.

(** [v == s] for a string [s]. *)
Definition eq_str (v : pyval) (s : string) : bool :=
  match v with
  | PStr s' => String.eqb s' s
  | _ => false
  end.

(** [hash(v)] succeeds: the value can key a [dict]. *)
Definition to_key (v : pyval) : outcome pykey :=
  match v with
  | PNone => Return KNone
  | PBool b => Return (KBool b)
  | PInt n => Return (KInt n)
  | PStr s => Return (KStr s)
  | PList _ | PDict _ => Raise TypeError
  | PExc _ => Raise TypeError
  end.

Definition of_key (k : pykey) : pyval :=
  match k with
  | KNone => PNone
  | KBool b => PBool b
  | KInt n => PInt n
  | KStr s => PStr s
  end.

(** [len(v)] *)
Definition len (v : pyval) : outcome Z :=
  match v with
  | PStr s => Return (Z.of_nat (String.length s))
  | PList l => Return (Z.of_nat (List.length l))
  | PDict d => Return (Z.of_nat (List.length d))
  | _ => Raise TypeError
  end.

(** An index into a sequence of [n] items, negative ones counting from
    the end. *)
Definition index (n : nat) (i : Z) : option nat :=
  let j := if i <? 0 then i + Z.of_nat n else i in
  if (0 <=? j) && (j <? Z.of_nat n) then Some (Z.to_nat j) else None.

Definition key_index (k : pykey) : option Z :=
  match k with
  | KInt i => Some i
  | KBool b => Some (if b then 1 else 0)
  | _ => None
  end.

(** [v[k]] *)
Definition getitem (v : pyval) (k : pykey) : outcome pyval :=
  match v with
  | PDict d =>
      match Dict.get k d with
      | Some x => Return x
      | None => Raise (KeyError k)
      end
  | PList l =>
      match key_index k with
      | Some i =>
          match index (List.length l) i with
          | Some j => match nth_error l j with
                      | Some x => Return x
                      | None => Raise IndexError
                      end
          | None => Raise IndexError
          end
      | None => Raise TypeError
      end
  | PStr s =>
      match key_index k with
      | Some i =>
          match index (String.length s) i with
          | Some j => match String.get j s with
                      | Some c => Return (PStr (String c EmptyString))
                      | None => Raise IndexError
                      end
          | None => Raise IndexError
          end
      | None => Raise TypeError
      end
  | _ => Raise TypeError
  end.

(** [v.get(k, None)]: only a [dict] has the method. *)
Definition get (v : pyval) (k : pykey) : outcome pyval :=
  match v with
  | PDict d =>
      match Dict.get k d with
      | Some x => Return x
      | None => Return PNone
      end
  | _ => Raise AttributeError
  end.

(** [s in v] for a string [s]: a key of a [dict], an item of a [list],
    a piece of a [str]. *)
Definition contains (s : string) (v : pyval) : outcome bool :=
  match v with
  | PDict d => Return (Dict.mem (KStr s) d)
  | PList l => Return (existsb (fun x => eq_str x s) l)
  | PStr t => Return (PyStr.contains s t)
  | _ => Raise TypeError
  end.

(** [v.split(sep)][i], with the [IndexError] of a short list. *)
Definition split (v : pyval) (sep : ascii) : outcome (list string) :=
  match v with
  | PStr s => Return (PyStr.split sep s)
  | _ => Raise AttributeError
  end.

Definition nth_str (l : list string) (i : nat) : outcome string :=
  match nth_error l i with
  | Some s => Return s
  | None => Raise IndexError
  end.

Definition is_digit (c : ascii) : bool :=
  let n := nat_of_ascii c in ((48 <=? n) && (n <=? 57))%nat.

(** The digits of an integer literal: single underscores are allowed
    between digits only. *)
Fixpoint digits_value (acc : Z) (after_digit : bool) (s : string) : option Z :=
  match s with
  | EmptyString => if after_digit then Some acc else None
  | String c s' =>
      if is_digit c
      then digits_value (10 * acc + (Z.of_nat (nat_of_ascii c) - 48)) true s'
      else if Ascii.eqb c "_"
           then if after_digit then digits_value acc false s' else None
           else None
  end.

Definition int_of_string (s : string) : option Z :=
  match PyStr.strip s with
  | String "+" t => digits_value 0 false t
  | String "-" t => option_map Z.opp (digits_value 0 false t)
  | t => digits_value 0 false t
  end.

(** [int(v)]: [TypeError] for what is no number and no string,
    [ValueError] for a string that is no integer literal. *)
Definition int (v : pyval) : outcome Z :=
  match v with
  | PInt n => Return n
  | PBool b => Return (if b then 1 else 0)
  | PStr s => match int_of_string s with
              | Some n => Return n
              | None => Raise ValueError
              end
  | _ => Raise TypeError
  end.

(** [str(type(v))], as ["%s" % type(v)] prints it. *)
Definition type_repr (v : pyval) : string :=
  match v with
  | PNone => "<class 'NoneType'>"
  | PBool _ => "<class 'bool'>"
  | PInt _ => "<class 'int'>"
  | PStr _ => "<class 'str'>"
  | PList _ => "<class 'list'>"
  | PDict _ => "<class 'dict'>"
  | PExc _ => "<class 'Exception'>"
  end.

End Py.

(* ================================================================== *)
(** * The fingerprint of a file: [get_hash] *)

Section HashEngine.

(** The files [open] can read: [None] where [open] or
    [os.path.getsize] fails with an [IOError]. *)
Variable fs : string -> option (list byte).

(** [struct.calcsize('q')] *)
Definition bytesize : Z := 8.

Fixpoint le_unsigned (bs : list byte) : Z :=
  match bs with
  | [] => 0
  | b :: rest => Z.of_N (Byte.to_N b) + 256 * le_unsigned rest
  end.

(** [struct.unpack('q', buffer)] on a little-endian host: a signed
    integer of eight bytes, [struct.error] for any other length. *)
Definition unpack_q (buffer : list byte) : outcome Z :=
  if (List.length buffer =? 8)%nat
  then let u := le_unsigned buffer in
       Return (if u <? 2 ^ 63 then u else u - 2 ^ 64)
  else Raise StructError.

(** [f.read(n)] on an open file, given as the bytes still ahead of the
    position: the bytes read and the file after the read. *)
Definition f_read (n : nat) (f : list byte) : list byte * list byte :=
  (firstn n f, skipn n f).

(** One of the two loops of [get_hash]: [n] times, read eight bytes, add
    them to [hash] and mask. *)
Fixpoint sum_words (n : nat) (f : list byte) (hash : Z)
  : outcome (Z * list byte) :=
  match n with
  | O => Return (hash, f)
  | S n' =>
      let (buffer, f') := f_read (Z.to_nat bytesize) f in
      let? l_value := unpack_q buffer in
      let hash := hash + l_value in
      let hash := Z.land hash 0xFFFFFFFFFFFFFFFF in
      sum_words n' f' hash
  end.

Definition get_hash (path : string) : outcome pyval :=
  match fs path with
  | None => Return PNone
  | Some content =>
      let filesize := Z.of_nat (List.length content) in
      let hash := filesize in
      if filesize <? 65536 * 2 then Return PNone
      else
        let? (hash, _) :=
          sum_words (Z.to_nat (65536 / bytesize)) content hash in
        let f := skipn (Z.to_nat (Z.max 0 (filesize - 65536))) content in
        let? (hash, _) := sum_words (Z.to_nat (65536 / bytesize)) f hash in
        Return (PStr (PyStr.format_016x hash))
  end.

End HashEngine.

(* ================================================================== *)
(** * The client object and its world *)

(** The remote methods of the service, with the arguments sent. *)
Inductive rpc_call : Type :=
| LogIn (user password language agent : string)
| CheckMovieHash (token : pyval) (movie_hash : list pyval)
| InsertMovieHash (token : pyval) (hashes : list (list (pykey * pyval))).

(** What the state file holds: text that is no JSON, or the two fields
    [store_state] writes. *)
Inductive stored : Type :=
| Garbage
| Saved (last_query_time : Z) (token : pyval).

(** The fields of [self] and the parts of the world the client changes:
    the state file, the dictionaries its caller holds (by address), the
    remote calls issued so far (latest first) and the number of times the
    clock was read. *)
Record state : Type := mkState {
  token : pyval;
  last_query_time : option Z;
  user : string;
  password : string;
  state_file : option stored;
  heap : nat -> list (pykey * pyval);
  calls : list rpc_call;
  ticks : nat
}.

Definition with_token (v : pyval) (st : state) : state :=
  mkState v (last_query_time st) (user st) (password st) (state_file st)
          (heap st) (calls st) (ticks st).

Definition with_last_query_time (t : option Z) (st : state) : state :=
  mkState (token st) t (user st) (password st) (state_file st)
          (heap st) (calls st) (ticks st).

Definition with_state_file (f : option stored) (st : state) : state :=
  mkState (token st) (last_query_time st) (user st) (password st) f
          (heap st) (calls st) (ticks st).

Definition with_heap (h : nat -> list (pykey * pyval)) (st : state) : state :=
  mkState (token st) (last_query_time st) (user st) (password st)
          (state_file st) h (calls st) (ticks st).

Definition with_calls (c : list rpc_call) (st : state) : state :=
  mkState (token st) (last_query_time st) (user st) (password st)
          (state_file st) (heap st) c (ticks st).

Definition with_ticks (n : nat) (st : state) : state :=
  mkState (token st) (last_query_time st) (user st) (password st)
          (state_file st) (heap st) (calls st) n.

(** A method: from a state to a result and the state it leaves, also when
    it raises. *)
Definition M (A : Type) : Type := state -> outcome A * state.

Definition ret {A} (a : A) : M A := fun st => (Return a, st).

Definition raise {A} (e : exn) : M A := fun st => (Raise e, st).

Definition lift {A} (r : outcome A) : M A := fun st => (r, st).

Definition bind {A B} (c : M A) (k : A -> M B) : M B :=
  fun st =>
    match c st with
    | (Return a, st') => k a st'
    | (Raise e, st') => (Raise e, st')
    end.

(** [try: c except Exception as e: h e] *)
Definition try_except {A} (c : M A) (h : exn -> M A) : M A :=
  fun st =>
    match c st with
    | (Return a, st') => (Return a, st')
    | (Raise e, st') => h e st'
    end.

Declare Scope method_scope.
Delimit Scope method_scope with method.
Notation "x <- c ;; k" := (bind c (fun x => k))
  (at level 61, c at next level, right associativity) : method_scope.
Notation "c ;; k" := (bind c (fun _ => k))
  (at level 61, right associativity) : method_scope.

Definition get_state : M state := fun st => (Return st, st).

Definition modify (f : state -> state) : M unit := fun st => (Return tt, f st).

(** [isinstance(e, socket.timeout)]: the module's timeout error derives
    from it. *)
Definition is_socket_timeout (e : exn) : bool :=
  match e with
  | SocketTimeout => true
  | Osdb OpenSutitlesTimeoutError _ => true
  | _ => false
  end.

(** [isinstance(e, socket.error)] *)
Definition is_socket_error (e : exn) : bool :=
  match e with
  | SocketError _ => true
  | _ => is_socket_timeout e
  end.

(** [ERROR_STATUS_EXCEPTIONS] (lines 110-120). *)
Definition ERROR_STATUS_EXCEPTIONS : list (string * os_class) :=
  [ ("401", UnauthorizedOpenSutitlesError);
    ("405", MandatoryParameterMissing);
    ("406", NoSessionOpenSubtitlesError);
    ("407", DownloadLimitReachedOpenSutitleError);
    ("408", InvalidParametersOpenSutitlesError);
    ("409", MethodNotFoundOpenSutitlesError);
    ("410", UnknownOpenSubtitlesError);
    ("411", InvalidUserAgentOpenSubtitlesError);
    ("415", DisabledUserAgentOpenSubtitlesError) ].

Fixpoint status_exception (tbl : list (string * os_class)) (code : string)
  : option os_class :=
  match tbl with
  | [] => None
  | (c, cls) :: tbl' => if String.eqb code c then Some cls else status_exception tbl' code
  end.

(** [timedelta(minutes=14)], in microseconds. *)
Definition TOKEN_EXPIRATION : Z := 14 * 60 * 1000000.

Definition STATUS_OK : string := "200 OK".

(* ================================================================== *)
(** * The class [OpenSutitles] *)

Section OpenSutitles.

Local Open Scope method_scope.

(** The service: what a call returns or raises, given the calls made
    before it. *)
Variable server : list rpc_call -> rpc_call -> outcome pyval.

(** The successive readings of [datetime.now()]. *)
Variable clock : nat -> Z.

Variable fs : string -> option (list byte).

(** The version of the installed package, which [pkg_resources]
    supplies. *)
Variable version : string.

Definition USER_AGENT : string := String.append "OsdbInfos v" version.

(** [self.server.<method>(...)] *)
Definition call_server (c : rpc_call) : M pyval :=
  fun st => (server (calls st) c, with_calls (c :: calls st) st).

(** [datetime.now()] *)
Definition datetime_now : M Z :=
  fun st => (Return (clock (ticks st)), with_ticks (S (ticks st)) st).

(** [load_state]: a missing file and a file that is no JSON leave the
    fields as they are. *)
Definition load_state : M unit :=
  st <- get_state ;;
  match state_file st with
  | None => ret tt
  | Some Garbage => ret tt
  | Some (Saved t tok) =>
      modify (with_last_query_time (Some t)) ;;
      modify (with_token tok)
  end.

(** [__init__], in a world with the given state file and caller's
    objects. *)
Definition init (user password : string) (file : option stored)
           (objects : nat -> list (pykey * pyval)) : state :=
  snd (load_state (mkState PNone None user password file objects [] O)).

(** [store_state]: [self.last_query_time.timestamp()] needs a time. *)
Definition store_state : M unit :=
  st <- get_state ;;
  match last_query_time st with
  | None => raise AttributeError
  | Some t => modify (with_state_file (Some (Saved t (token st))))
  end.

Definition is_token_expired : M bool :=
  st <- get_state ;;
  match token st with
  | PNone => ret true
  | _ =>
      match last_query_time st with
      | None => ret true
      | Some t =>
          now <- datetime_now ;;
          if t + TOKEN_EXPIRATION <=? now then ret true else ret false
      end
  end.

Definition register : M unit :=
  expired <- is_token_expired ;;
  if expired then
    try_except
      (st <- get_state ;;
       result <- call_server (LogIn (user st) (password st) "en" USER_AGENT) ;;
       match result with
       | PNone => ret tt
       | _ =>
           has <- lift (Py.contains "token" result) ;;
           if has then
             tok <- lift (Py.getitem result (KStr "token")) ;;
             modify (with_token tok)
           else ret tt
       end)
      (fun e =>
         if is_socket_timeout e
         then raise (Osdb OpenSutitlesTimeoutError NoArg)
         else raise e)
  else ret tt.

Definition clean_imdbid (imdbid : pyval) : outcome pyval :=
  match imdbid with
  | PStr s =>
      if negb (PyStr.startswith "tt" s)
      then Return (PStr (String.append "tt" (PyStr.rjust 7 "0" s)))
      else Return (PStr s)
  | _ => Raise AttributeError
  end.

(** [title.split(q)[i].strip()], [q] being the double quote. *)
Definition title_part (title : pyval) (i : nat) : outcome pyval :=
  let? parts := Py.split title dquote in
  let? part := Py.nth_str parts i in
  Return (PStr (PyStr.strip part)).

(** Lines 295-299: the two assignments under [except IndexError: pass];
    what the first one wrote stays when the second one fails. *)
Definition split_title (title : pyval) (result : list (pykey * pyval))
  : outcome (list (pykey * pyval)) :=
  match title_part title 1 with
  | Raise IndexError => Return result
  | Raise e => Raise e
  | Return serie =>
      let result := Dict.set (KStr "serie_title") serie result in
      match title_part title 2 with
      | Raise IndexError => Return result
      | Raise e => Raise e
      | Return episode =>
          Return (Dict.set (KStr "episode_title") episode result)
      end
  end.

(** Lines 303-308 and 309-315: [result[field] = int(result[field])]
    under [except TypeError] and [except ValueError], which only log. *)
Definition coerce_int (field : string) (result : list (pykey * pyval))
  : outcome (list (pykey * pyval)) :=
  let? v := Py.getitem (PDict result) (KStr field) in
  match Py.int v with
  | Return n => Return (Dict.set (KStr field) (PInt n) result)
  | Raise TypeError => Return result
  | Raise ValueError => Return result
  | Raise e => Raise e
  end.

(** The body of the loop of [_parse_dict] after [datas = datas[_hash]]
    (lines 285-318): the record appended to [ret]. *)
Definition parse_entry (_hash : pykey) (datas : pyval)
  : outcome (list (pykey * pyval)) :=
  let? n := Py.len datas in
  if 0 <? n then
    let result := [] in
    let? movie_hash := Py.get datas (KStr "MovieHash") in
    let result := Dict.set (KStr "movie_hash") movie_hash result in
    let? has_imdb := Py.contains "MovieImdbID" datas in
    let? result :=
      (if has_imdb : bool then
         let? raw := Py.getitem datas (KStr "MovieImdbID") in
         let? imdb_id := clean_imdbid raw in
         Return (Dict.set (KStr "imdb_id") imdb_id result)
       else Return result) in
    let? kind := Py.get datas (KStr "MovieKind") in
    let result := Dict.set (KStr "kind") kind result in
    if Py.eq_str kind "movie" then
      let? movie_name := Py.get datas (KStr "MovieName") in
      let result := Dict.set (KStr "movie_name") movie_name result in
      let? movie_year := Py.get datas (KStr "MovieYear") in
      let result := Dict.set (KStr "movie_year") movie_year result in
      Return result
    else if Py.eq_str kind "episode" then
      let? title := Py.getitem datas (KStr "MovieName") in
      let? result := split_title title result in
      let? season := Py.get datas (KStr "SeriesSeason") in
      let result := Dict.set (KStr "season_number") season result in
      let? episode := Py.get datas (KStr "SeriesEpisode") in
      let result := Dict.set (KStr "episode_number") episode result in
      let? result := coerce_int "season_number" result in
      let? result := coerce_int "episode_number" result in
      Return result
    else Return result
  else Return [(KStr "movie_hash", Py.of_key _hash)].

(** The loop of [_parse_dict] (lines 282-318).  The keys come from the
    dictionary the method was given; the name [datas] is bound again by
    [datas = datas[_hash]] in every round, so each round looks its key
    up in the value the round before left in [datas]. *)
Fixpoint parse_loop (hashes : list pykey) (datas : pyval) (ret : list pyval)
  : outcome (list pyval) :=
  match hashes with
  | [] => Return ret
  | _hash :: hashes' =>
      let? datas := Py.getitem datas _hash in
      let? result := parse_entry _hash datas in
      parse_loop hashes' datas (ret ++ [PDict result])
  end.

(** [{v['movie_hash']: v for v in ret}] *)
Fixpoint flatten (ret : list pyval) (acc : list (pykey * pyval))
  : outcome (list (pykey * pyval)) :=
  match ret with
  | [] => Return acc
  | v :: ret' =>
      let? movie_hash := Py.getitem v (KStr "movie_hash") in
      let? k := Py.to_key movie_hash in
      flatten ret' (Dict.set k v acc)
  end.

Definition _parse_dict (datas : list (pykey * pyval)) : M pyval :=
  ret_list <- lift (parse_loop (Dict.keys datas) (PDict datas) []) ;;
  flat <- lift (flatten ret_list []) ;;
  store_state ;;
  ret (PDict flat).

(** [{x['MovieHash']: x for x in datas if isinstance(x, dict)}] *)
Fixpoint rekey (datas : list pyval) (acc : list (pykey * pyval))
  : outcome (list (pykey * pyval)) :=
  match datas with
  | [] => Return acc
  | x :: datas' =>
      match x with
      | PDict _ =>
          let? movie_hash := Py.getitem x (KStr "MovieHash") in
          let? k := Py.to_key movie_hash in
          rekey datas' (Dict.set k x acc)
      | _ => rekey datas' acc
      end
  end.

Definition is_none (v : pyval) : bool :=
  match v with PNone => true | _ => false end.

(** [self.token or False] *)
Definition token_or_false (st : state) : pyval :=
  if Py.truthy (token st) then token st else PBool false.

(** Lines 237-252 of [get_infos]: the [try] block and its handlers. *)
Definition checked_lookup (movie_hash : list pyval) : M pyval :=
  try_except
    (register ;;
     now <- datetime_now ;;
     modify (with_last_query_time (Some now)) ;;
     st <- get_state ;;
     call_server (CheckMovieHash (token_or_false st) movie_hash))
    (fun e =>
       if is_socket_timeout e then raise (Osdb OpenSutitlesTimeoutError NoArg)
       else match e with
            | ProtocolError errcode =>
                if errcode =? 503
                then raise (Osdb OpenSutitlesServiceUnavailable NoArg)
                else raise (Osdb OpenSutitlesError (Exc e))
            | _ =>
                if is_socket_error e
                then raise (Osdb OpenSutitlesNetworkError (StrOf e))
                else raise (Osdb OpenSutitlesError (StrOf e))
            end).

(** Lines 255-266 of [get_infos]: the data section of a reply whose
    status is [STATUS_OK]. *)
Definition decode_data (datas : pyval) : M pyval :=
  match datas with
  | PDict d => _parse_dict d
  | PList l =>
      d <- lift (rekey l []) ;;
      _parse_dict d
  | _ =>
      ret (PExc (Osdb InvalidResultOpenSutitlesError
                      (Msg (String.append "Can't parse " (Py.type_repr datas)))))
  end.

(** Lines 254-277 of [get_infos]: what is made of the reply. *)
Definition decode_reply (res : pyval) : M pyval :=
  status <- lift (Py.getitem res (KStr "status")) ;;
  if Py.eq_str status STATUS_OK then
    datas <- lift (Py.getitem res (KStr "data")) ;;
    decode_data datas
  else
    if Py.truthy status then
      parts <- lift (Py.split status " ") ;;
      status_code <- lift (Py.nth_str parts 0) ;;
      match status_exception ERROR_STATUS_EXCEPTIONS status_code, status with
      | Some cls, PStr s => raise (Osdb cls (Msg s))
      | None, PStr s => raise (Osdb OpenSutitlesError (Msg s))
      | _, _ => raise AttributeError
      end
    else raise UnboundLocalError.

Definition get_infos (movie_hash : list pyval) : M pyval :=
  if (List.length movie_hash =? 0)%nat then ret (PDict [])
  else
    let movie_hash := filter (fun x => negb (is_none x)) movie_hash in
    if (List.length movie_hash =? 0)%nat then ret (PDict [])
    else
      res <- checked_lookup movie_hash ;;
      decode_reply res.

(** [{self.get_hash(path): path for path in files}] *)
Fixpoint hash_files (files : list string) (acc : list (pykey * string))
  : outcome (list (pykey * string)) :=
  match files with
  | [] => Return acc
  | path :: files' =>
      let? h := get_hash fs path in
      let? k := Py.to_key h in
      hash_files files' (Dict.set k path acc)
  end.

(** A path or [None], as a key of the result. *)
Definition path_key (p : option string) : pykey :=
  match p with
  | Some path => KStr path
  | None => KNone
  end.

Definition get_or_none (k : pykey) (d : list (pykey * pyval)) : pyval :=
  match Dict.get k d with
  | Some v => v
  | None => PNone
  end.

Definition get_files_infos (files : list string) : M pyval :=
  _hashs_files <- lift (hash_files files []) ;;
  _hashs_infos <- get_infos (map Py.of_key (Dict.keys _hashs_files)) ;;
  if Py.truthy _hashs_infos then
    match _hashs_infos with
    | PDict infos =>
        ret (PDict
               (Dict.of_list
                  (map (fun _hash =>
                          (path_key (Dict.get _hash _hashs_files),
                           get_or_none _hash infos))
                       (Dict.keys infos))))
    | _ => raise TypeError
    end
  else ret (PDict []).

(** [v.replace('tt', '')] *)
Definition replace_tt (v : pyval) : outcome pyval :=
  match v with
  | PStr s => Return (PStr (PyStr.replace "tt" EmptyString s))
  | _ => Raise AttributeError
  end.

Definition update_heap (a : nat) (d : list (pykey * pyval))
           (h : nat -> list (pykey * pyval)) : nat -> list (pykey * pyval) :=
  fun b => if Nat.eqb b a then d else h b.

(** Lines 345-349 of [insert_movie_hash]: the loop over the caller's
    dictionaries, given by their addresses. *)
Fixpoint reformat_imdbids (hashes : list nat) : M unit :=
  match hashes with
  | [] => ret tt
  | data :: hashes' =>
      try_except
        (st <- get_state ;;
         imdbid <- lift (Py.getitem (PDict (heap st data)) (KStr "imdbid")) ;;
         stripped <- lift (replace_tt imdbid) ;;
         modify (fun st =>
                   with_heap
                     (update_heap data
                        (Dict.set (KStr "imdbid") stripped (heap st data))
                        (heap st))
                     st))
        (fun e =>
           match e with
           | KeyError _ =>
               raise (Osdb OpenSutitlesInvalidParam
                           (Msg "Key imdbid is missing"))
           | _ => raise e
           end) ;;
      reformat_imdbids hashes'
  end.

(** Lines 351-366 of [insert_movie_hash]. *)
Definition checked_insert (hashes : list nat) : M pyval :=
  try_except
    (register ;;
     now <- datetime_now ;;
     modify (with_last_query_time (Some now)) ;;
     st <- get_state ;;
     call_server (InsertMovieHash (token_or_false st) (map (heap st) hashes)))
    (fun e =>
       if is_socket_timeout e then raise (Osdb OpenSutitlesTimeoutError NoArg)
       else match e with
            | ProtocolError errcode =>
                if errcode =? 503
                then raise (Osdb OpenSutitlesServiceUnavailable NoArg)
                else raise (Osdb OpenSutitlesError (Exc e))
            | _ => raise (Osdb OpenSutitlesError (Exc e))
            end).

Definition insert_movie_hash (hashes : list nat) : M pyval :=
  reformat_imdbids hashes ;;
  res <- checked_insert hashes ;;
  status <- lift (Py.getitem res (KStr "status")) ;;
  has_408 <- lift (Py.contains "408" status) ;;
  if has_408 then raise (Osdb OpenSutitlesInvalidParam (Msg "Invalid parameters"))
  else
    status <- lift (Py.getitem res (KStr "status")) ;;
    if Py.eq_str status STATUS_OK then
      lift (Py.getitem res (KStr "data"))
    else ret PNone.

End OpenSutitles.

(* ================================================================== *)
(** * Vocabulary of the statements *)

(** [s.replace('tt', '')], as [insert_movie_hash] applies it. *)
Definition strip_tt (s : string) : string := PyStr.replace "tt" EmptyString s.

(** A caller's record after the loop of [insert_movie_hash] went over it:
    its [imdbid], a string, without [tt]. *)
Definition strip_record (d : list (pykey * pyval)) : list (pykey * pyval) :=
  match Dict.get (KStr "imdbid") d with
  | Some (PStr s) => Dict.set (KStr "imdbid") (PStr (strip_tt s)) d
  | _ => d
  end.

(** The record has an [imdbid] and it is a string. *)
Definition has_str_imdbid (d : list (pykey * pyval)) : Prop :=
  exists s, Dict.get (KStr "imdbid") d = Some (PStr s).

(** The [imdbid] of the record, when present, is a string. *)
Definition imdbid_str_or_missing (d : list (pykey * pyval)) : Prop :=
  Dict.get (KStr "imdbid") d = None \/ has_str_imdbid d.

(** The call ended with an exception. *)
Definition raises {A} (r : outcome A * state) : Prop :=
  exists e, fst r = Raise e.

(** The session is valid: [is_token_expired] answers [False]. *)
Definition is_valid (clock : nat -> Z) (st : state) : bool :=
  match fst (is_token_expired clock st) with
  | Return expired => negb expired
  | Raise _ => false
  end.

(** The sum of the first [n] words of eight bytes of [f], each read as
    [struct.unpack('q', _)] reads it. *)
Fixpoint words_sum (n : nat) (f : list byte) : Z :=
  match n with
  | O => 0
  | S n' =>
      match unpack_q (firstn 8 f) with
      | Return v => v
      | Raise _ => 0
      end + words_sum n' (skipn 8 f)
  end.

(** What [get_hash] keys a path by in [get_files_infos]. *)
Definition fingerprint_key (fs : string -> option (list byte)) (path : string)
  : pykey :=
  match get_hash fs path with
  | Return (PStr s) => KStr s
  | _ => KNone
  end.

(** [result[field]] after [int] was tried on [v]: the integer, or [v]
    itself when [int] raised. *)
Definition coerced (v : pyval) : pyval :=
  match Py.int v with
  | Return n => PInt n
  | Raise _ => v
  end.

(** The values of [d.get(k, None)]. *)
Definition field (k : string) (d : list (pykey * pyval)) : pyval :=
  get_or_none (KStr k) d.

(** The record [_parse_dict] builds for an episode whose title has fewer
    than three pieces. *)
Definition short_episode_record (e : list (pykey * pyval)) (title : string)
  : list (pykey * pyval) :=
  let result := [(KStr "movie_hash", field "MovieHash" e)] in
  let result :=
    match Dict.get (KStr "MovieImdbID") e with
    | Some (PStr s) =>
        Dict.set (KStr "imdb_id")
                 (if negb (PyStr.startswith "tt" s)
                  then PStr (String.append "tt" (PyStr.rjust 7 "0" s))
                  else PStr s) result
    | _ => result
    end in
  let result := Dict.set (KStr "kind") (PStr "episode") result in
  let result :=
    match PyStr.split dquote title with
    | [_; part] =>
        Dict.set (KStr "serie_title") (PStr (PyStr.strip part)) result
    | _ => result
    end in
  let result :=
    Dict.set (KStr "season_number") (field "SeriesSeason" e) result in
  let result :=
    Dict.set (KStr "episode_number") (field "SeriesEpisode" e) result in
  let result :=
    Dict.set (KStr "season_number") (coerced (field "SeriesSeason" e)) result in
  Dict.set (KStr "episode_number") (coerced (field "SeriesEpisode" e)) result.

(** Unfolds the plumbing of a method down to the state it threads. *)
Ltac run_method :=
  unfold bind, try_except, lift, ret, raise, modify, get_state.

(* ------------------------------------------------------------------ *)
(** ** A small world to run the client in *)

Module Demo.

(** Two files: one of 500000 bytes, one of 1000 bytes. *)
Definition movie_bytes : list byte := repeat x00 (Z.to_nat 500000).

Definition sample_bytes : list byte := repeat x00 (Z.to_nat 1000).

Definition fs (path : string) : option (list byte) :=
  if String.eqb path "movie.avi" then Some movie_bytes
  else if String.eqb path "sample.avi" then Some sample_bytes
  else None.

(** The fingerprint of [movie.avi]: its size, the bytes being zero. *)
Definition F1 : string := "000000000007a120".

Definition F2 : string := "000000000001c000".

Definition movie (h : string) : pyval :=
  PDict [ (KStr "MovieHash", PStr h);
          (KStr "MovieKind", PStr "movie");
          (KStr "MovieName", PStr "Night of the Living Dead");
          (KStr "MovieYear", PStr "1968");
          (KStr "MovieImdbID", PStr "63350") ].

Definition reply (status : string) (data : pyval) : pyval :=
  PDict [ (KStr "status", PStr status); (KStr "data", data) ].

(** A service that accepts every login with the token [tok] and answers
    every other call with [answer]. *)
Definition server (answer : pyval) (before : list rpc_call) (c : rpc_call)
  : outcome pyval :=
  match c with
  | LogIn _ _ _ _ =>
      Return (PDict [ (KStr "token", PStr "tok");
                      (KStr "status", PStr "200 OK") ])
  | _ => Return answer
  end.

(** The reply to a lookup of [F1] that the service matches. *)
Definition lookup_reply : pyval :=
  reply "200 OK" (PDict [ (KStr F1, movie F1) ]).

(** The record [_parse_dict] makes of [movie h]. *)
Definition record (h : string) : list (pykey * pyval) :=
  [ (KStr "movie_hash", PStr h);
    (KStr "imdb_id", PStr "tt0063350");
    (KStr "kind", PStr "movie");
    (KStr "movie_name", PStr "Night of the Living Dead");
    (KStr "movie_year", PStr "1968") ].

(** A reply whose data section is a string. *)
Definition bad_shape_reply : pyval := reply "200 OK" (PStr "oops").

Definition unauthorized_reply : pyval :=
  reply "401 Unauthorized" (PBool false).

(** A service that cannot be reached: every call times out. *)
Definition down (before : list rpc_call) (c : rpc_call) : outcome pyval :=
  Raise SocketTimeout.

(** One second between two readings of the clock. *)
Definition clock (n : nat) : Z := 1000000 * Z.of_nat n.

Definition version : string := "1.0".

(** The caller's objects: at address 0 a record with an [imdbid], at
    address 1 a record without, elsewhere empty dictionaries. *)
Definition objects (a : nat) : list (pykey * pyval) :=
  match a with
  | O => [ (KStr "moviehash", PStr F1);
           (KStr "moviebytesize", PStr "500000");
           (KStr "imdbid", PStr "tt0063350") ]
  | S O => [ (KStr "moviehash", PStr F2);
             (KStr "moviebytesize", PStr "131072") ]
  | _ => []
  end.

(** A client just built, no state file being there. *)
Definition fresh : state := init EmptyString EmptyString None objects.

(** The same client with a time of last query. *)
Definition stamped : state := with_last_query_time (Some 0) fresh.

(** Two fingerprints in one reply. *)
Definition two_entries : list (pykey * pyval) :=
  [ (KStr F1, movie F1); (KStr F2, movie F2) ].

(** An episode whose title has one double quote, so two pieces, and
    whose season is no number. *)
Definition episode : list (pykey * pyval) :=
  [ (KStr "MovieHash", PStr F1);
    (KStr "MovieKind", PStr "episode");
    (KStr "MovieName", PStr (String.append "Lost" (String dquote " Pilot")));
    (KStr "SeriesSeason", PStr "one");
    (KStr "SeriesEpisode", PStr "2") ].

End Demo.

(* ------------------------------------------------------------------ *)
(** ** Vocabulary for the rest of the class *)

(** [isinstance(v, dict)] *)
Definition is_dict (v : pyval) : bool :=
  match v with
  | PDict _ => true
  | _ => false
  end.

(** The key [x['MovieHash']] gives the item [x] of a reply that came as a
    list ([None] standing in where the key cannot be had). *)
Definition movie_hash_key (x : pyval) : pykey :=
  match rbind (Py.getitem x (KStr "MovieHash")) Py.to_key with
  | Return k => k
  | Raise _ => KNone
  end.

(** The first fields [_parse_dict] writes for a non-empty entry [e] of the
    given kind: [movie_hash], [imdb_id] when the entry has a
    [MovieImdbID] (a string), [kind]. *)
Definition common_fields (e : list (pykey * pyval)) (kind : pyval)
  : list (pykey * pyval) :=
  let result := [(KStr "movie_hash", field "MovieHash" e)] in
  let result :=
    match Dict.get (KStr "MovieImdbID") e with
    | Some (PStr s) =>
        Dict.set (KStr "imdb_id")
                 (if negb (PyStr.startswith "tt" s)
                  then PStr (String.append "tt" (PyStr.rjust 7 "0" s))
                  else PStr s) result
    | _ => result
    end in
  Dict.set (KStr "kind") kind result.

(** The record of a movie. *)
Definition movie_record (e : list (pykey * pyval)) : list (pykey * pyval) :=
  Dict.set (KStr "movie_year") (field "MovieYear" e)
    (Dict.set (KStr "movie_name") (field "MovieName" e)
       (common_fields e (PStr "movie"))).

(** The record of an episode whose title has the two pieces [serie] and
    [episode] after its first piece. *)
Definition full_episode_record (e : list (pykey * pyval)) (serie episode : string)
  : list (pykey * pyval) :=
  let result := common_fields e (PStr "episode") in
  let result := Dict.set (KStr "serie_title") (PStr (PyStr.strip serie)) result in
  let result :=
    Dict.set (KStr "episode_title") (PStr (PyStr.strip episode)) result in
  let result :=
    Dict.set (KStr "season_number") (field "SeriesSeason" e) result in
  let result :=
    Dict.set (KStr "episode_number") (field "SeriesEpisode" e) result in
  let result :=
    Dict.set (KStr "season_number") (coerced (field "SeriesSeason" e)) result in
  Dict.set (KStr "episode_number") (coerced (field "SeriesEpisode" e)) result.

(** The state [get_infos] and [insert_movie_hash] are in when they call
    the service, [register] having left [st]: the clock was read and the
    time of the query recorded. *)
Definition stamp (clock : nat -> Z) (st : state) : state :=
  with_last_query_time (Some (clock (ticks st))) (with_ticks (S (ticks st)) st).

(** The fingerprints [get_infos] keeps. *)
Definition usable (movie_hash : list pyval) : list pyval :=
  filter (fun x => negb (is_none x)) movie_hash.

(** Equality of byte strings, to be computed. *)
Fixpoint bytes_eqb (a b : list byte) : bool :=
  match a, b with
  | [], [] => true
  | x :: a', y :: b' => Byte.eqb x y && bytes_eqb a' b'
  | _, _ => false
  end.

Module Lab.

(** The file of [Demo] with one byte changed in its middle. *)
Definition twin_bytes : list byte :=
  repeat x00 (Z.to_nat 200000) ++ [xff] ++ repeat x00 (Z.to_nat 299999).

Definition fs (path : string) : option (list byte) :=
  if String.eqb path "movie.avi" then Some Demo.movie_bytes
  else if String.eqb path "twin.avi" then Some twin_bytes
  else if String.eqb path "sample.avi" then Some Demo.sample_bytes
  else None.

(** A service that accepts every login and fails every other call with
    [e]. *)
Definition failing (e : exn) (before : list rpc_call) (c : rpc_call)
  : outcome pyval :=
  match c with
  | LogIn _ _ _ _ => Return (PDict [ (KStr "token", PStr "tok") ])
  | _ => Raise e
  end.

(** A service that gives no token at login. *)
Definition anonymous (answer : pyval) (before : list rpc_call) (c : rpc_call)
  : outcome pyval :=
  match c with
  | LogIn _ _ _ _ => Return (PDict [ (KStr "status", PStr "200 OK") ])
  | _ => Return answer
  end.

(** The caller's objects when the first record has a number as
    [imdbid]: at address 0 that record, at address 1 a record with a
    string. *)
Definition mixed_objects (a : nat) : list (pykey * pyval) :=
  match a with
  | O => [ (KStr "moviehash", PStr Demo.F1);
           (KStr "imdbid", PInt 63350) ]
  | S O => [ (KStr "moviehash", PStr Demo.F2);
             (KStr "imdbid", PStr "tt0063350") ]
  | _ => []
  end.

(** A client just built beside those objects. *)
Definition mixed : state := init EmptyString EmptyString None mixed_objects.

(** A client holding a token and a time of last query. *)
Definition logged : state := with_token (PStr "tok") Demo.stamped.

(** The matched reply, as a list with a stray item. *)
Definition list_reply : pyval :=
  Demo.reply "200 OK" (PList [ Demo.movie Demo.F1; PStr "stray" ]).

(** An episode with a full title. *)
Definition episode : list (pykey * pyval) :=
  [ (KStr "MovieHash", PStr Demo.F1);
    (KStr "MovieKind", PStr "episode");
    (KStr "MovieName",
      PStr (String dquote
              (String.append "Lost"
                 (String dquote " Pilot: Part 1"))));
    (KStr "SeriesSeason", PStr "1");
    (KStr "SeriesEpisode", PStr "1") ].

End Lab.

(* ================================================================== *)
(** * Facts about dictionaries *)

Module DictFacts.

Lemma raw_eqb_eq (a b : pykey) : Dict.raw_eqb a b = true <-> a = b.
Proof.
  destruct a, b; simpl; split; intros H; try discriminate; try reflexivity.
  - f_equal. now apply Bool.eqb_prop.
  - inversion H. apply Bool.eqb_reflx.
  - f_equal. now apply Z.eqb_eq.
  - inversion H. apply Z.eqb_refl.
  - f_equal. now apply String.eqb_eq.
  - inversion H. apply String.eqb_refl.
Qed.

Lemma key_eqb_norm (a b : pykey) :
  Dict.key_eqb a b = true <-> Dict.norm a = Dict.norm b.
Proof. unfold Dict.key_eqb. apply raw_eqb_eq. Qed.

Lemma key_eqb_refl (a : pykey) : Dict.key_eqb a a = true.
Proof. now apply key_eqb_norm. Qed.

Lemma key_eqb_sym (a b : pykey) : Dict.key_eqb a b = Dict.key_eqb b a.
Proof.
  destruct (Dict.key_eqb a b) eqn:E1, (Dict.key_eqb b a) eqn:E2; try reflexivity.
  - apply key_eqb_norm in E1. symmetry in E1. apply key_eqb_norm in E1. congruence.
  - apply key_eqb_norm in E2. symmetry in E2. apply key_eqb_norm in E2. congruence.
Qed.

(** Equal keys are interchangeable in a comparison. *)
Lemma key_eqb_congr (a b c : pykey) :
  Dict.key_eqb a b = true -> Dict.key_eqb a c = Dict.key_eqb b c.
Proof.
  intros H. apply key_eqb_norm in H. unfold Dict.key_eqb. now rewrite H.
Qed.

Lemma key_eqb_congr_r (a b c : pykey) :
  Dict.key_eqb b c = true -> Dict.key_eqb a b = Dict.key_eqb a c.
Proof.
  intros H. apply key_eqb_norm in H. unfold Dict.key_eqb. now rewrite H.
Qed.

Lemma key_eqb_str (s t : string) :
  Dict.key_eqb (KStr s) (KStr t) = String.eqb s t.
Proof. reflexivity. Qed.

Section Values.
Context {V : Type}.
Implicit Types (d kvs : list (pykey * V)) (k : pykey) (v : V).

Lemma get_congr k k' d :
  Dict.key_eqb k k' = true -> Dict.get k d = Dict.get k' d.
Proof.
  intros H. induction d as [|[k0 v0] d IH]; simpl; [reflexivity|].
  rewrite (key_eqb_congr _ _ k0 H). now rewrite IH.
Qed.

Lemma get_set k k' v d :
  Dict.get k (Dict.set k' v d)
  = if Dict.key_eqb k k' then Some v else Dict.get k d.
Proof.
  induction d as [|[k0 v0] d IH]; simpl.
  - reflexivity.
  - destruct (Dict.key_eqb k' k0) eqn:E; simpl.
    + rewrite (key_eqb_congr_r k _ _ E).
      now destruct (Dict.key_eqb k k0).
    + rewrite IH.
      destruct (Dict.key_eqb k k0) eqn:E0, (Dict.key_eqb k k') eqn:E';
        try reflexivity.
      rewrite (key_eqb_congr _ _ k0 E') in E0. congruence.
Qed.

Lemma get_set_same k v d : Dict.get k (Dict.set k v d) = Some v.
Proof. now rewrite get_set, key_eqb_refl. Qed.

Lemma get_set_other k k' v d :
  Dict.key_eqb k k' = false -> Dict.get k (Dict.set k' v d) = Dict.get k d.
Proof. intros H. now rewrite get_set, H. Qed.

(** Writing a key twice keeps the second value. *)
Lemma set_set k v v' d :
  Dict.set k v (Dict.set k v' d) = Dict.set k v d.
Proof.
  induction d as [|[k0 v0] d IH]; simpl.
  - now rewrite key_eqb_refl.
  - destruct (Dict.key_eqb k k0) eqn:E; simpl; rewrite E; [reflexivity|].
    now rewrite IH.
Qed.

Lemma get_update k kvs : forall d,
  Dict.get k (Dict.update d kvs)
  = match Dict.last_binding k kvs with
    | Some v => Some v
    | None => Dict.get k d
    end.
Proof.
  unfold Dict.update.
  induction kvs as [|[k' v] kvs IH]; intros d; simpl; [reflexivity|].
  rewrite IH. destruct (Dict.last_binding k kvs); [reflexivity|].
  rewrite get_set. now destruct (Dict.key_eqb k k').
Qed.

Lemma get_of_list k kvs : Dict.get k (Dict.of_list kvs) = Dict.last_binding k kvs.
Proof.
  unfold Dict.of_list. rewrite get_update.
  now destruct (Dict.last_binding k kvs).
Qed.

Lemma last_binding_in k kvs v :
  Dict.last_binding k kvs = Some v ->
  exists k', In (k', v) kvs /\ Dict.key_eqb k k' = true.
Proof.
  induction kvs as [|[k' v'] kvs IH]; simpl; [discriminate|].
  destruct (Dict.last_binding k kvs) as [w|].
  - intros [= ->]. destruct (IH eq_refl) as (k0 & Hin & Hk). eauto.
  - destruct (Dict.key_eqb k k') eqn:E; [|discriminate].
    intros [= ->]. eauto.
Qed.

Lemma last_binding_none k kvs :
  Dict.last_binding k kvs = None ->
  forall k' v, In (k', v) kvs -> Dict.key_eqb k k' = false.
Proof.
  induction kvs as [|[k0 v0] kvs IH]; simpl; [intros _ ? ? []|].
  destruct (Dict.last_binding k kvs) as [w|]; [discriminate|].
  destruct (Dict.key_eqb k k0) eqn:E; [discriminate|].
  intros _ k' v [[= <- <-]|Hin]; [exact E | now apply (IH eq_refl k' v)].
Qed.

Lemma get_some_in_keys k d v :
  Dict.get k d = Some v ->
  exists k', In k' (Dict.keys d) /\ Dict.key_eqb k k' = true
             /\ Dict.get k' d = Some v.
Proof.
  induction d as [|[k0 v0] d IH]; simpl; [discriminate|].
  destruct (Dict.key_eqb k k0) eqn:E.
  - intros [= ->]. exists k0. rewrite key_eqb_refl. auto.
  - intros H. destruct (IH H) as (k' & Hin & Hk & Hget).
    exists k'. repeat split; auto.
    destruct (Dict.key_eqb k' k0) eqn:E'; [|exact Hget].
    rewrite (key_eqb_congr _ _ _ Hk) in E. congruence.
Qed.

Lemma in_keys_get k d :
  In k (Dict.keys d) -> exists v, Dict.get k d = Some v.
Proof.
  induction d as [|[k0 v0] d IH]; simpl; [intros []|].
  intros [->|Hin].
  - rewrite key_eqb_refl. eauto.
  - destruct (Dict.key_eqb k k0); eauto.
Qed.

End Values.

End DictFacts.

(* ================================================================== *)
(** * Facts about [replace('tt', '')] *)

Module ReplaceFacts.

Lemma rep_cons (c : ascii) (s : string) :
  strip_tt (String c s)
  = if String.prefix "tt" (String c s)
    then match s with
         | String _ s' => strip_tt s'
         | EmptyString => EmptyString
         end
    else String c (strip_tt s).
Proof.
  unfold strip_tt, PyStr.replace. cbn [PyStr.replace_from].
  destruct (String.prefix "tt" (String c s)); [|reflexivity].
  destruct s; reflexivity.
Qed.

Lemma prefix_tt_cons (c : ascii) (s : string) :
  String.prefix "tt" (String c s)
  = Ascii.eqb c "t" && String.prefix "t" s.
Proof.
  cbn [String.prefix]. destruct (ascii_dec "t" c) as [<-|Hne].
  - now rewrite Ascii.eqb_refl.
  - destruct (Ascii.eqb_spec c "t"); [congruence | reflexivity].
Qed.

Lemma prefix_t_cons (c : ascii) (s : string) :
  String.prefix "t" (String c s) = Ascii.eqb c "t".
Proof.
  cbn [String.prefix]. destruct (ascii_dec "t" c) as [<-|Hne].
  - rewrite Ascii.eqb_refl. now destruct s.
  - destruct (Ascii.eqb_spec c "t"); [congruence | reflexivity].
Qed.

(** What does not start with [t] still does not after the replacement. *)
Lemma rep_keeps_head (s : string) :
  String.prefix "t" s = false -> String.prefix "t" (strip_tt s) = false.
Proof.
  destruct s as [|c s]; [reflexivity|].
  rewrite prefix_t_cons. intros Hc.
  rewrite rep_cons, prefix_tt_cons, Hc. cbn [andb].
  now rewrite prefix_t_cons.
Qed.

Lemma rep_no_tt_bounded (n : nat) :
  forall s, (String.length s <= n)%nat -> PyStr.contains "tt" (strip_tt s) = false.
Proof.
  induction n as [|n IH]; intros s Hlen.
  - destruct s; [reflexivity | simpl in Hlen; lia].
  - destruct s as [|c s]; [reflexivity|].
    simpl in Hlen. rewrite rep_cons, prefix_tt_cons.
    destruct (Ascii.eqb c "t") eqn:Hc; cbn [andb].
    + destruct (String.prefix "t" s) eqn:Hs.
      * destruct s as [|c' s']; [discriminate|].
        apply IH. simpl in Hlen. lia.
      * cbn [PyStr.contains]. rewrite prefix_tt_cons, Hc.
        rewrite (rep_keeps_head s Hs). cbn [andb orb].
        apply IH. lia.
    + cbn [PyStr.contains]. rewrite prefix_tt_cons, Hc. cbn [andb orb].
      apply IH. lia.
Qed.

(** After the replacement no [tt] is left. *)
Lemma rep_no_tt (s : string) : PyStr.contains "tt" (strip_tt s) = false.
Proof. now apply (rep_no_tt_bounded (String.length s)). Qed.

(** A string without [tt] is left as it is. *)
Lemma rep_fixed (s : string) : PyStr.contains "tt" s = false -> strip_tt s = s.
Proof.
  induction s as [|c s IH]; [reflexivity|].
  cbn [PyStr.contains]. intros H.
  apply Bool.orb_false_iff in H. destruct H as [Hp Hc].
  rewrite rep_cons, Hp. now rewrite IH.
Qed.

Lemma rep_idempotent (s : string) : strip_tt (strip_tt s) = strip_tt s.
Proof. apply rep_fixed, rep_no_tt. Qed.

End ReplaceFacts.

(* ================================================================== *)
(** * Properties of the fingerprint *)

Section HexFacts.

Lemma string_length_append (s t : string) :
  String.length (String.append s t) = (String.length s + String.length t)%nat.
Proof. induction s as [|c s IH]; simpl; [reflexivity | now rewrite IH]. Qed.

Lemma repeat_char_length (c : ascii) (n : nat) :
  String.length (PyStr.repeat_char c n) = n.
Proof. induction n as [|n IH]; simpl; [reflexivity | now rewrite IH]. Qed.

Lemma forallb_string_append (p : ascii -> bool) (s t : string) :
  PyStr.forallb_string p (String.append s t)
  = PyStr.forallb_string p s && PyStr.forallb_string p t.
Proof.
  induction s as [|c s IH]; simpl; [reflexivity|].
  now rewrite IH, andb_assoc.
Qed.

Lemma forallb_repeat_char (p : ascii -> bool) (c : ascii) (n : nat) :
  p c = true -> PyStr.forallb_string p (PyStr.repeat_char c n) = true.
Proof. intros Hc; induction n as [|n IH]; simpl; [reflexivity | now rewrite Hc, IH]. Qed.

(** The sixteen digits, one by one. *)
Lemma small_cases (d : Z) :
  0 <= d < 16 ->
  d = 0 \/ d = 1 \/ d = 2 \/ d = 3 \/ d = 4 \/ d = 5 \/ d = 6 \/ d = 7 \/
  d = 8 \/ d = 9 \/ d = 10 \/ d = 11 \/ d = 12 \/ d = 13 \/ d = 14 \/ d = 15.
Proof. lia. Qed.

Lemma hex_digit_lower (d : Z) :
  0 <= d < 16 -> PyStr.is_lower_hex (PyStr.hex_digit d) = true.
Proof.
  intros H; destruct (small_cases d H) as
    [->|[->|[->|[->|[->|[->|[->|[->|[->|[->|[->|[->|[->|[->|[->| ->]]]]]]]]]]]]]]];
    reflexivity.
Qed.

Lemma hex_digit_value_digit (d : Z) :
  0 <= d < 16 -> PyStr.hex_digit_value (PyStr.hex_digit d) = Some d.
Proof.
  intros H; destruct (small_cases d H) as
    [->|[->|[->|[->|[->|[->|[->|[->|[->|[->|[->|[->|[->|[->|[->| ->]]]]]]]]]]]]]]];
    reflexivity.
Qed.

Lemma hex_aux_lower (fuel : nat) :
  forall n acc,
    0 <= n ->
    PyStr.forallb_string PyStr.is_lower_hex acc = true ->
    PyStr.forallb_string PyStr.is_lower_hex (PyStr.hex_aux fuel n acc) = true.
Proof.
  induction fuel as [|fuel IH]; intros n acc Hn Hacc; simpl; [assumption|].
  assert (Hd : PyStr.is_lower_hex (PyStr.hex_digit (n mod 16)) = true)
    by (apply hex_digit_lower, Z.mod_pos_bound; lia).
  destruct (n / 16 =? 0).
  - simpl. now rewrite Hd, Hacc.
  - apply IH.
    + apply Z.div_pos; lia.
    + simpl. now rewrite Hd, Hacc.
Qed.

(** With [n] below [16 ^ k], at most [k] digits are written. *)
Lemma hex_aux_length (fuel : nat) :
  forall (k : nat) n acc,
    (1 <= k)%nat -> 0 <= n < 16 ^ Z.of_nat k ->
    (String.length (PyStr.hex_aux fuel n acc) <= k + String.length acc)%nat.
Proof.
  induction fuel as [|fuel IH]; intros k n acc Hk Hn; simpl; [lia|].
  destruct (n / 16 =? 0) eqn:Hq.
  - simpl. lia.
  - apply Z.eqb_neq in Hq.
    destruct k as [|[|k]]; [lia | |].
    + exfalso. apply Hq. apply Z.div_small. simpl in Hn. lia.
    + specialize (IH (S k) (n / 16)
                     (String (PyStr.hex_digit (n mod 16)) acc)).
      simpl String.length in IH.
      assert (Hb : 0 <= n / 16 < 16 ^ Z.of_nat (S k)).
      { split; [apply Z.div_pos; lia|].
        apply Z.div_lt_upper_bound; [lia|].
        replace (Z.of_nat (S (S k))) with (Z.succ (Z.of_nat (S k))) in Hn by lia.
        rewrite Z.pow_succ_r in Hn by lia. lia. }
      specialize (IH ltac:(lia) Hb). lia.
Qed.

(** With enough fuel the digits written are those of [n]: reading them
    back from 0 and going on with [acc] is reading [acc] from [n]. *)
Lemma hex_aux_value (fuel : nat) :
  forall n acc,
    0 <= n < 16 ^ Z.of_nat fuel ->
    PyStr.hex_value_from 0 (PyStr.hex_aux fuel n acc)
    = PyStr.hex_value_from n acc.
Proof.
  induction fuel as [|fuel IH]; intros n acc Hn.
  - simpl in Hn. assert (n = 0) by lia. subst. reflexivity.
  - simpl PyStr.hex_aux.
    assert (Hm : 0 <= n mod 16 < 16) by (apply Z.mod_pos_bound; lia).
    destruct (n / 16 =? 0) eqn:Hq.
    + apply Z.eqb_eq in Hq. cbn [PyStr.hex_value_from].
      rewrite hex_digit_value_digit by assumption.
      f_equal. pose proof (Z.div_mod n 16 ltac:(lia)). lia.
    + rewrite IH.
      * cbn [PyStr.hex_value_from]. rewrite hex_digit_value_digit by assumption.
        f_equal. pose proof (Z.div_mod n 16 ltac:(lia)). lia.
      * split; [apply Z.div_pos; lia|].
        apply Z.div_lt_upper_bound; [lia|].
        replace (Z.of_nat (S fuel)) with (Z.succ (Z.of_nat fuel)) in Hn by lia.
        rewrite Z.pow_succ_r in Hn by lia. lia.
Qed.

Lemma hex_fuel_enough (n : Z) :
  0 <= n -> n < 16 ^ Z.of_nat (S (Z.to_nat (Z.log2 n))).
Proof.
  intros Hn.
  pose proof (Z.log2_nonneg n) as Hl.
  replace (Z.of_nat (S (Z.to_nat (Z.log2 n)))) with (Z.succ (Z.log2 n)) by lia.
  assert (H2 : n < 2 ^ Z.succ (Z.log2 n)).
  { destruct (Z.eq_dec n 0) as [->|Hz]; [reflexivity|].
    apply Z.log2_spec. lia. }
  assert (2 ^ Z.succ (Z.log2 n) <= 16 ^ Z.succ (Z.log2 n))
    by (apply Z.pow_le_mono_l; lia).
  lia.
Qed.

Lemma hex_value_hex (n : Z) :
  0 <= n -> PyStr.hex_value (PyStr.hex n) = Some n.
Proof.
  intros Hn. unfold PyStr.hex_value, PyStr.hex.
  rewrite hex_aux_value by (split; [assumption | now apply hex_fuel_enough]).
  reflexivity.
Qed.

Lemma hex_value_zeros (k : nat) (s : string) :
  PyStr.hex_value (String.append (PyStr.repeat_char "0" k) s)
  = PyStr.hex_value s.
Proof.
  unfold PyStr.hex_value.
  induction k as [|k IH]; simpl; [reflexivity | exact IH].
Qed.

(** What ["%016x"] gives for a value of 64 bits. *)
Lemma format_016x_64 (h : Z) :
  0 <= h < 2 ^ 64 ->
  String.length (PyStr.format_016x h) = 16%nat
  /\ PyStr.forallb_string PyStr.is_lower_hex (PyStr.format_016x h) = true
  /\ PyStr.hex_value (PyStr.format_016x h) = Some h
  /\ exists zeros : nat,
       PyStr.format_016x h
       = String.append (PyStr.repeat_char "0" zeros) (PyStr.hex h).
Proof.
  intros [H0 H64]. unfold PyStr.format_016x.
  destruct (h <? 0) eqn:Hneg; [apply Z.ltb_lt in Hneg; lia|].
  unfold PyStr.rjust.
  assert (Hlen : (String.length (PyStr.hex h) <= 16)%nat).
  { pose proof (hex_aux_length (S (Z.to_nat (Z.log2 h))) 16 h EmptyString
                  ltac:(lia)) as Hl.
    unfold PyStr.hex.
    assert (16 ^ Z.of_nat 16 = 2 ^ 64) as E by reflexivity.
    rewrite E in Hl. specialize (Hl (conj H0 H64)).
    cbn [String.length] in Hl. lia. }
  repeat split.
  - rewrite string_length_append, repeat_char_length. lia.
  - rewrite forallb_string_append, forallb_repeat_char by reflexivity.
    apply hex_aux_lower; [assumption | reflexivity].
  - rewrite hex_value_zeros. now apply hex_value_hex.
  - eexists. reflexivity.
Qed.

End HexFacts.

Section HashFacts.

Variable fs : string -> option (list byte).

Lemma land_mask_bounds (x : Z) :
  0 <= Z.land x 0xFFFFFFFFFFFFFFFF < 2 ^ 64.
Proof.
  change 0xFFFFFFFFFFFFFFFF with (Z.ones 64).
  rewrite Z.land_ones by lia.
  apply Z.mod_pos_bound. reflexivity.
Qed.

Lemma unpack_q_eight (buffer : list byte) :
  List.length buffer = 8%nat -> exists v, unpack_q buffer = Return v.
Proof.
  intros H. unfold unpack_q. rewrite H. simpl. eexists. reflexivity.
Qed.

(** A loop of [n] rounds over a file with [8 * n] bytes ahead ends, and
    what it leaves in [hash] has 64 bits as soon as it ran once. *)
Lemma sum_words_total (n : nat) :
  forall f hash,
    (8 * n <= List.length f)%nat ->
    exists h f',
      sum_words n f hash = Return (h, f')
      /\ ((0 < n)%nat \/ 0 <= hash < 2 ^ 64 -> 0 <= h < 2 ^ 64).
Proof.
  induction n as [|n IH]; intros f hash Hlen.
  - exists hash, f. split; [reflexivity|]. intros [H|H]; [lia | exact H].
  - cbn [sum_words]. unfold f_read.
    change (Z.to_nat bytesize) with 8%nat.
    destruct (unpack_q_eight (firstn 8 f)) as [v Hv].
    { rewrite length_firstn. lia. }
    rewrite Hv. cbn [rbind].
    destruct (IH (skipn 8 f) (Z.land (hash + v) 0xFFFFFFFFFFFFFFFF))
      as (h & f' & Hrun & Hbound).
    { rewrite length_skipn. lia. }
    exists h, f'. split; [exact Hrun|].
    intros _. apply Hbound. right. apply land_mask_bounds.
Qed.

(** The loop adds with wrap-around: after at least one round [hash] is
    the sum of its first value and of the words read, modulo [2 ^ 64]. *)
Lemma sum_words_mod (n : nat) :
  forall f hash,
    (8 * S n <= List.length f)%nat ->
    exists f',
      sum_words (S n) f hash
      = Return ((hash + words_sum (S n) f) mod 2 ^ 64, f').
Proof.
  induction n as [|n IH]; intros f hash Hlen.
  - cbn [sum_words words_sum]. unfold f_read.
    change (Z.to_nat bytesize) with 8%nat.
    destruct (unpack_q_eight (firstn 8 f)) as [v Hv];
      [rewrite length_firstn; lia|].
    rewrite Hv. cbn [rbind]. eexists.
    change 0xFFFFFFFFFFFFFFFF with (Z.ones 64).
    rewrite Z.land_ones by lia. now rewrite Z.add_0_r.
  - remember (S n) as m eqn:Hm.
    cbn [sum_words words_sum]. unfold f_read.
    change (Z.to_nat bytesize) with 8%nat.
    destruct (unpack_q_eight (firstn 8 f)) as [v Hv];
      [rewrite length_firstn; lia|].
    rewrite Hv. cbn [rbind]. subst m.
    destruct (IH (skipn 8 f) (Z.land (hash + v) 0xFFFFFFFFFFFFFFFF))
      as [f' Hrun]; [rewrite length_skipn; lia|].
    rewrite Hrun. exists f'. do 2 f_equal.
    change 0xFFFFFFFFFFFFFFFF with (Z.ones 64).
    rewrite Z.land_ones by lia.
    rewrite Z.add_mod_idemp_l by lia. f_equal. lia.
Qed.

Lemma sum_words_wraps (n : nat) (f : list byte) (hash : Z) :
  (0 < n)%nat ->
  (8 * n <= List.length f)%nat ->
  exists f',
    sum_words n f hash = Return ((hash + words_sum n f) mod 2 ^ 64, f').
Proof.
  intros Hpos Hlen. destruct n as [|n]; [lia|]. now apply sum_words_mod.
Qed.

(** On a file of at least 131072 bytes that can be read, both loops of
    [get_hash] end and the string returned renders a value of 64 bits. *)
Lemma get_hash_large (path : string) (content : list byte) :
  fs path = Some content ->
  131072 <= Z.of_nat (List.length content) ->
  exists h1 f1 h f2,
    sum_words (Z.to_nat 8192) content (Z.of_nat (List.length content))
    = Return (h1, f1)
    /\ sum_words (Z.to_nat 8192)
         (skipn (Z.to_nat (Z.of_nat (List.length content) - 65536)) content)
         h1
       = Return (h, f2)
    /\ 0 <= h < 2 ^ 64
    /\ h = (Z.of_nat (List.length content)
           + words_sum (Z.to_nat 8192) content
           + words_sum (Z.to_nat 8192)
               (skipn (Z.to_nat (Z.of_nat (List.length content) - 65536))
                      content)) mod 2 ^ 64
    /\ get_hash fs path = Return (PStr (PyStr.format_016x h)).
Proof.
  intros Hfs Hsize.
  set (n := Z.to_nat 8192).
  assert (Hn : (0 < n)%nat /\ Z.of_nat (8 * n) = 65536) by (unfold n; lia).
  set (tail := skipn (Z.to_nat (Z.of_nat (List.length content) - 65536)) content).
  assert (Htail : (8 * n <= List.length tail)%nat)
    by (unfold tail; rewrite length_skipn; lia).
  set (size := Z.of_nat (List.length content)) in *.
  destruct (sum_words_wraps n content size) as [f1 Hrun1]; [lia | lia |].
  destruct (sum_words_wraps n tail ((size + words_sum n content) mod 2 ^ 64))
    as [f2 Hrun2]; [lia | lia |].
  eexists _, f1, _, f2.
  split; [exact Hrun1|]. split; [exact Hrun2|].
  split; [apply Z.mod_pos_bound; lia|].
  split; [now rewrite Z.add_mod_idemp_l by lia|].
  unfold get_hash. rewrite Hfs. fold size.
  destruct (size <? 65536 * 2) eqn:Hsmall; [apply Z.ltb_lt in Hsmall; lia|].
  change (65536 / bytesize) with 8192. fold n.
  rewrite Z.max_r by lia. fold tail.
  rewrite Hrun1. cbn [rbind]. rewrite Hrun2. reflexivity.
Qed.

(** C9. A file of at least 131072 bytes that [open] can read gets a
    fingerprint: [get_hash] returns a string, the rendering by
    ["%016x"] of the value [h] the two loops leave.  The first loop
    starts from the file size, every addition is masked to 64 bits, so
    [0 <= h < 2 ^ 64] and [h] is the size plus the 8192 leading and the
    8192 trailing words, modulo [2 ^ 64]; the string has exactly 16 characters, all of them
    lower-case hexadecimal digits, it reads back as [h], and it is the
    digits of [h] with zeros on the left. *)
Theorem C9_get_hash_sixteen_lower_hex (path : string) (content : list byte) :
  fs path = Some content ->
  131072 <= Z.of_nat (List.length content) ->
  exists h1 h : Z,
    get_hash fs path = Return (PStr (PyStr.format_016x h))
    /\ (exists f1,
          sum_words (Z.to_nat 8192) content (Z.of_nat (List.length content))
          = Return (h1, f1))
    /\ (exists f2,
          sum_words (Z.to_nat 8192)
            (skipn (Z.to_nat (Z.of_nat (List.length content) - 65536)) content)
            h1
          = Return (h, f2))
    /\ 0 <= h < 2 ^ 64
    /\ h = (Z.of_nat (List.length content)
           + words_sum (Z.to_nat 8192) content
           + words_sum (Z.to_nat 8192)
               (skipn (Z.to_nat (Z.of_nat (List.length content) - 65536))
                      content)) mod 2 ^ 64
    /\ String.length (PyStr.format_016x h) = 16%nat
    /\ PyStr.forallb_string PyStr.is_lower_hex (PyStr.format_016x h) = true
    /\ PyStr.hex_value (PyStr.format_016x h) = Some h
    /\ exists zeros : nat,
         PyStr.format_016x h
         = String.append (PyStr.repeat_char "0" zeros) (PyStr.hex h).
Proof.
  intros Hfs Hsize.
  destruct (get_hash_large path content Hfs Hsize)
    as (h1 & f1 & h & f2 & Hrun1 & Hrun2 & Hh & Hsum & Hret).
  destruct (format_016x_64 h Hh) as (Hlen & Hhex & Hval & Hpad).
  exists h1, h. repeat split; eauto; lia.
Qed.

End HashFacts.

(* ================================================================== *)
(** * The lookup: [get_infos] and [_parse_dict] *)

Section LookupFacts.

Variable server : list rpc_call -> rpc_call -> outcome pyval.
Variable clock : nat -> Z.
Variable version : string.

Lemma filter_all_none (l : list pyval) :
  Forall (fun x => x = PNone) l ->
  filter (fun x => negb (is_none x)) l = [].
Proof.
  induction 1 as [|x l Hx _ IH]; [reflexivity|].
  subst x. simpl. exact IH.
Qed.

(** C3 (as the code has it). A call of [get_infos] with no fingerprint,
    or with [None] placeholders only, returns the empty mapping and
    leaves the state as it was: no error is raised, and no remote call
    is issued (the list of calls, like the rest of the state, is
    unchanged). *)
Theorem C3_get_infos_nothing_usable (movie_hash : list pyval) (st : state) :
  Forall (fun x => x = PNone) movie_hash ->
  get_infos server clock version movie_hash st = (Return (PDict []), st).
Proof.
  intros Hnone. unfold get_infos.
  destruct (List.length movie_hash =? 0)%nat; [reflexivity|].
  now rewrite (filter_all_none _ Hnone).
Qed.

(** What [get_infos] does once the list holds a usable fingerprint and
    the [try] block returned the reply [res]. *)
Lemma get_infos_reply (movie_hash : list pyval) (st st' : state) (res : pyval) :
  filter (fun x => negb (is_none x)) movie_hash <> [] ->
  checked_lookup server clock version
    (filter (fun x => negb (is_none x)) movie_hash) st = (Return res, st') ->
  get_infos server clock version movie_hash st = decode_reply res st'.
Proof.
  intros Husable Hcall. unfold get_infos.
  destruct movie_hash as [|x l]; [now contradiction Husable|].
  cbn [List.length Nat.eqb].
  destruct (filter (fun x => negb (is_none x)) (x :: l)) as [|y l'] eqn:Hf;
    [now contradiction Husable|].
  cbn [List.length Nat.eqb]. unfold bind. now rewrite Hcall.
Qed.

(** C4 (what the code does). When the reply has the status [200 OK] and
    a data section that is neither a [dict] nor a [list], [get_infos]
    does not raise: it returns, as an ordinary value, an instance of
    [InvalidResultOpenSutitlesError]. *)
Theorem C4_get_infos_returns_the_error
  (movie_hash : list pyval) (st st' : state) (res datas : pyval) :
  filter (fun x => negb (is_none x)) movie_hash <> [] ->
  checked_lookup server clock version
    (filter (fun x => negb (is_none x)) movie_hash) st = (Return res, st') ->
  Py.getitem res (KStr "status") = Return (PStr STATUS_OK) ->
  Py.getitem res (KStr "data") = Return datas ->
  (forall d, datas <> PDict d) ->
  (forall l, datas <> PList l) ->
  get_infos server clock version movie_hash st
  = (Return (PExc (Osdb InvalidResultOpenSutitlesError
                        (Msg (String.append "Can't parse "
                                            (Py.type_repr datas))))), st').
Proof.
  intros Husable Hcall Hstatus Hdata Hd Hl.
  rewrite (get_infos_reply _ _ _ _ Husable Hcall).
  unfold decode_reply, bind, lift. rewrite Hstatus.
  cbn [Py.eq_str]. unfold STATUS_OK at 1. rewrite String.eqb_refl.
  rewrite Hdata. unfold decode_data.
  destruct datas; try reflexivity.
  - now contradiction (Hl l).
  - now contradiction (Hd d).
Qed.

(** C2 (what the code does). On a reply with two fingerprints
    [_parse_dict] raises: the second round looks the second fingerprint
    up in the entry of the first, where the first round left [datas]. *)
Theorem C2_parse_dict_second_entry_raises (st : state) :
  _parse_dict Demo.two_entries st = (Raise (KeyError (KStr Demo.F2)), st).
Proof. reflexivity. Qed.

End LookupFacts.

(* ================================================================== *)
(** * From the status of a reply to an error *)

Section StatusFacts.

Variable server : list rpc_call -> rpc_call -> outcome pyval.
Variable clock : nat -> Z.
Variable version : string.

Lemma split_nonempty (sep : ascii) (s : string) : PyStr.split sep s <> [].
Proof.
  destruct s as [|c s]; simpl; [discriminate|].
  destruct (Ascii.eqb c sep); [discriminate|].
  destruct (PyStr.split sep s); discriminate.
Qed.

Lemma nth_str_head (l : list string) :
  l <> [] -> Py.nth_str l 0 = Return (hd EmptyString l).
Proof. destruct l; [congruence | reflexivity]. Qed.

(** The status of a lookup reply that is not [200 OK] and not empty. *)
Lemma decode_reply_error (res : pyval) (s : string) (st : state) :
  Py.getitem res (KStr "status") = Return (PStr s) ->
  s <> STATUS_OK -> s <> EmptyString ->
  decode_reply res st
  = (Raise (Osdb
              match status_exception ERROR_STATUS_EXCEPTIONS
                      (hd EmptyString (PyStr.split " " s)) with
              | Some cls => cls
              | None => OpenSutitlesError
              end (Msg s)), st).
Proof.
  intros Hstatus Hok Hempty. unfold decode_reply, bind, lift.
  rewrite Hstatus. cbn [Py.eq_str Py.truthy Py.split].
  apply String.eqb_neq in Hok. rewrite Hok.
  apply String.eqb_neq in Hempty. rewrite Hempty. cbn [negb].
  rewrite (nth_str_head _ (split_nonempty " " s)).
  now destruct (status_exception ERROR_STATUS_EXCEPTIONS
                  (hd EmptyString (PyStr.split " " s))).
Qed.

Lemma decode_reply_ok (res datas : pyval) (st : state) :
  Py.getitem res (KStr "status") = Return (PStr STATUS_OK) ->
  Py.getitem res (KStr "data") = Return datas ->
  decode_reply res st = decode_data datas st.
Proof.
  intros Hstatus Hdata. unfold decode_reply, bind, lift.
  rewrite Hstatus. cbn [Py.eq_str]. unfold STATUS_OK at 1.
  rewrite String.eqb_refl. now rewrite Hdata.
Qed.

(** What [insert_movie_hash] makes of the status [s] of the reply. *)
Lemma insert_movie_hash_reply
  (hashes : list nat) (st st1 st2 : state) (res : pyval) (s : string) :
  reformat_imdbids hashes st = (Return tt, st1) ->
  checked_insert server clock version hashes st1 = (Return res, st2) ->
  Py.getitem res (KStr "status") = Return (PStr s) ->
  insert_movie_hash server clock version hashes st
  = (if PyStr.contains "408" s
     then Raise (Osdb OpenSutitlesInvalidParam (Msg "Invalid parameters"))
     else if String.eqb s STATUS_OK
          then Py.getitem res (KStr "data")
          else Return PNone, st2).
Proof.
  intros Hloop Hcall Hstatus. unfold insert_movie_hash, bind, lift.
  rewrite Hloop, Hcall, Hstatus. cbn [Py.contains Py.eq_str].
  destruct (PyStr.contains "408" s); [reflexivity|].
  now destruct (String.eqb s STATUS_OK).
Qed.

(** C5 (as the code has it).  The lookup goes by the first word of the
    status: when the status is neither [200 OK] nor empty, [get_infos]
    raises the error the table gives for that word (the nine codes 401,
    405, 406, 407, 408, 409, 410, 411, 415) and [OpenSutitlesError] for
    any other word, built from the raw status; when the status is
    [200 OK] no error comes from the status and the data section is
    decoded.  The insert does not use the table: a status that contains
    [408] raises [OpenSutitlesInvalidParam], the status [200 OK] returns
    the data section, any other status returns [None] and raises
    nothing. *)
Theorem C5_status_to_error :
  map fst ERROR_STATUS_EXCEPTIONS
  = ["401"; "405"; "406"; "407"; "408"; "409"; "410"; "411"; "415"]
  /\ (forall movie_hash st st' res s,
        filter (fun x => negb (is_none x)) movie_hash <> [] ->
        checked_lookup server clock version
          (filter (fun x => negb (is_none x)) movie_hash) st
        = (Return res, st') ->
        Py.getitem res (KStr "status") = Return (PStr s) ->
        (s <> STATUS_OK -> s <> EmptyString ->
         get_infos server clock version movie_hash st
         = (Raise (Osdb
                     match status_exception ERROR_STATUS_EXCEPTIONS
                             (hd EmptyString (PyStr.split " " s)) with
                     | Some cls => cls
                     | None => OpenSutitlesError
                     end (Msg s)), st'))
        /\ (s = STATUS_OK ->
            forall datas,
              Py.getitem res (KStr "data") = Return datas ->
              get_infos server clock version movie_hash st
              = decode_data datas st'))
  /\ (forall hashes st st1 st2 res s,
        reformat_imdbids hashes st = (Return tt, st1) ->
        checked_insert server clock version hashes st1 = (Return res, st2) ->
        Py.getitem res (KStr "status") = Return (PStr s) ->
        insert_movie_hash server clock version hashes st
        = (if PyStr.contains "408" s
           then Raise (Osdb OpenSutitlesInvalidParam
                            (Msg "Invalid parameters"))
           else if String.eqb s STATUS_OK
                then Py.getitem res (KStr "data")
                else Return PNone, st2)).
Proof.
  split; [reflexivity|]. split.
  - intros movie_hash st st' res s Husable Hcall Hstatus.
    rewrite (get_infos_reply server clock version _ _ _ _ Husable Hcall).
    split.
    + intros Hok Hempty. now apply decode_reply_error.
    + intros -> datas Hdata. now apply decode_reply_ok.
  - intros. now apply insert_movie_hash_reply with (st1 := st1).
Qed.

End StatusFacts.

(* ================================================================== *)
(** * The insert: [insert_movie_hash] and the caller's records *)

Section InsertFacts.

Variable server : list rpc_call -> rpc_call -> outcome pyval.
Variable clock : nat -> Z.
Variable version : string.

Lemma with_heap_same (st : state) : with_heap (heap st) st = st.
Proof. now destruct st. Qed.

Lemma strip_record_str (d : list (pykey * pyval)) :
  has_str_imdbid d -> has_str_imdbid (strip_record d).
Proof.
  intros [s Hs]. unfold strip_record. rewrite Hs.
  exists (strip_tt s). apply DictFacts.get_set_same.
Qed.

Lemma strip_record_idempotent (d : list (pykey * pyval)) :
  strip_record (strip_record d) = strip_record d.
Proof.
  unfold strip_record at 2 3.
  destruct (Dict.get (KStr "imdbid") d) as [[| | |s| | |]|] eqn:Hd;
    try (unfold strip_record; now rewrite Hd).
  unfold strip_record. rewrite DictFacts.get_set_same.
  now rewrite ReplaceFacts.rep_idempotent, DictFacts.set_set.
Qed.

(** One round of the loop on a record with a string [imdbid]. *)
Lemma reformat_round (data : nat) (rest : list nat) (st : state) :
  has_str_imdbid (heap st data) ->
  reformat_imdbids (data :: rest) st
  = reformat_imdbids rest
      (with_heap (update_heap data (strip_record (heap st data)) (heap st)) st).
Proof.
  intros [s Hs]. cbn [reformat_imdbids]. run_method.
  cbn [Py.getitem]. unfold strip_record. rewrite Hs. reflexivity.
Qed.

(** One round of the loop on a record without [imdbid]. *)
Lemma reformat_round_missing (data : nat) (rest : list nat) (st : state) :
  Dict.get (KStr "imdbid") (heap st data) = None ->
  reformat_imdbids (data :: rest) st
  = (Raise (Osdb OpenSutitlesInvalidParam (Msg "Key imdbid is missing")), st).
Proof.
  intros Hs. cbn [reformat_imdbids]. run_method.
  cbn [Py.getitem]. now rewrite Hs.
Qed.

Lemma update_heap_same a d h : update_heap a d h a = d.
Proof. unfold update_heap. now rewrite Nat.eqb_refl. Qed.

Lemma update_heap_other a b d h : b <> a -> update_heap a d h b = h b.
Proof.
  intros Hne. unfold update_heap.
  now destruct (Nat.eqb_spec b a).
Qed.

(** The loop over records that all have a string [imdbid]: it ends, and
    changes nothing but the records it went over. *)
Lemma reformat_imdbids_all (hashes : list nat) :
  forall st,
    (forall a, In a hashes -> has_str_imdbid (heap st a)) ->
    exists h,
      reformat_imdbids hashes st = (Return tt, with_heap h st)
      /\ forall a, h a = if existsb (Nat.eqb a) hashes
                        then strip_record (heap st a)
                        else heap st a.
Proof.
  induction hashes as [|data rest IH]; intros st Hall.
  - exists (heap st). rewrite with_heap_same. now split.
  - rewrite reformat_round by (apply Hall; now left).
    set (st1 := with_heap _ st).
    destruct (IH st1) as (h & Hrun & Hh).
    { intros a Ha. unfold st1. cbn [heap with_heap].
      destruct (Nat.eq_dec a data) as [->|Hne].
      - rewrite update_heap_same. apply strip_record_str, Hall. now left.
      - rewrite update_heap_other by assumption. apply Hall. now right. }
    exists h. split; [exact Hrun|].
    intros a. rewrite Hh. unfold st1. cbn [heap with_heap existsb].
    destruct (Nat.eqb_spec a data) as [->|Hne]; cbn [orb].
    + rewrite update_heap_same.
      destruct (existsb (Nat.eqb data) rest);
        [apply strip_record_idempotent | reflexivity].
    + now rewrite update_heap_other by assumption.
Qed.

(** The loop over records of which one has no [imdbid]: it raises, and
    has changed nothing but records. *)
Lemma reformat_imdbids_missing (hashes : list nat) :
  forall st,
    (forall a, In a hashes -> imdbid_str_or_missing (heap st a)) ->
    (exists a, In a hashes /\ Dict.get (KStr "imdbid") (heap st a) = None) ->
    exists h,
      reformat_imdbids hashes st
      = (Raise (Osdb OpenSutitlesInvalidParam (Msg "Key imdbid is missing")),
         with_heap h st).
Proof.
  induction hashes as [|data rest IH]; intros st Hall (a0 & Hin0 & Hmiss).
  - destruct Hin0.
  - destruct (Hall data (or_introl eq_refl)) as [Hnone|Hstr].
    + exists (heap st). rewrite with_heap_same.
      now apply reformat_round_missing.
    + rewrite reformat_round by assumption.
      set (st1 := with_heap _ st).
      assert (Hne : a0 <> data).
      { intros ->. destruct Hstr as [s Hs]. congruence. }
      destruct (IH st1) as (h & Hrun).
      * intros a Ha. unfold st1. cbn [heap with_heap].
        destruct (Nat.eq_dec a data) as [->|Hne'].
        -- rewrite update_heap_same. right. now apply strip_record_str.
        -- rewrite update_heap_other by assumption. apply Hall. now right.
      * exists a0. split.
        -- destruct Hin0 as [<-|Hin]; [congruence | exact Hin].
        -- unfold st1. cbn [heap with_heap].
           now rewrite update_heap_other by assumption.
      * exists h. exact Hrun.
Qed.

(** C6 (as the code has it). When some record of the list has no
    [imdbid] (the others having none or a string), [insert_movie_hash]
    raises [OpenSutitlesInvalidParam], with the message
    [Key imdbid is missing], before any remote call: the calls issued,
    the token and the time of the last query are as before the call. *)
Theorem C6_insert_missing_imdbid (hashes : list nat) (st : state) :
  (forall a, In a hashes -> imdbid_str_or_missing (heap st a)) ->
  (exists a, In a hashes /\ Dict.get (KStr "imdbid") (heap st a) = None) ->
  exists st',
    insert_movie_hash server clock version hashes st
    = (Raise (Osdb OpenSutitlesInvalidParam (Msg "Key imdbid is missing")),
       st')
    /\ calls st' = calls st
    /\ token st' = token st
    /\ last_query_time st' = last_query_time st.
Proof.
  intros Hall Hmiss.
  destruct (reformat_imdbids_missing hashes st Hall Hmiss) as (h & Hrun).
  exists (with_heap h st). unfold insert_movie_hash, bind.
  rewrite Hrun. repeat split.
Qed.

(** The heap is the caller's: nothing but the loop writes to it. *)
Lemma is_token_expired_heap (st : state) :
  heap (snd (is_token_expired clock st)) = heap st.
Proof.
  unfold is_token_expired, datetime_now. run_method.
  destruct (token st); try reflexivity;
    destruct (last_query_time st) as [t|]; try reflexivity;
    now destruct (t + TOKEN_EXPIRATION <=? clock (ticks st)).
Qed.

Lemma register_heap (st : state) :
  heap (snd (register server clock version st)) = heap st.
Proof.
  unfold register. unfold bind at 1.
  pose proof (is_token_expired_heap st) as Hexp.
  destruct (is_token_expired clock st) as [[[|]|e] st1]; cbn [snd] in Hexp;
    [| exact Hexp | exact Hexp].
  unfold call_server. run_method.
  destruct (server (calls st1) _) as [result|e]; cbn [heap with_calls].
  - destruct result; cbn [Py.contains]; try (now destruct (is_socket_timeout _));
      try exact Hexp.
    + destruct (PyStr.contains "token" s); cbn [Py.getitem Py.key_index];
        [now destruct (is_socket_timeout _) | exact Hexp].
    + destruct (existsb _ l); cbn [Py.getitem Py.key_index];
        [now destruct (is_socket_timeout _) | exact Hexp].
    + destruct (Dict.mem (KStr "token") d); [|exact Hexp].
      cbn [Py.getitem].
      destruct (Dict.get (KStr "token") d); [exact Hexp|].
      now destruct (is_socket_timeout _).
  - now destruct (is_socket_timeout e).
Qed.

Lemma checked_insert_heap (hashes : list nat) (st : state) :
  heap (snd (checked_insert server clock version hashes st)) = heap st.
Proof.
  unfold checked_insert. unfold try_except, bind at 1.
  pose proof (register_heap st) as Hreg.
  destruct (register server clock version st) as [[[]|e] st1];
    cbn [snd] in Hreg.
  - unfold datetime_now, call_server. run_method.
    destruct (server _ _) as [res|e]; cbn [snd heap with_calls with_ticks
                                              with_last_query_time];
      [exact Hreg|].
    unfold raise.
    destruct (is_socket_timeout e); [exact Hreg|].
    destruct e; try exact Hreg.
    now destruct (errcode =? 503).
  - unfold raise.
    destruct (is_socket_timeout e); [exact Hreg|].
    destruct e; try exact Hreg.
    now destruct (errcode =? 503).
Qed.

Lemma insert_movie_hash_heap (hashes : list nat) (st st1 : state) :
  reformat_imdbids hashes st = (Return tt, st1) ->
  heap (snd (insert_movie_hash server clock version hashes st)) = heap st1.
Proof.
  intros Hloop. unfold insert_movie_hash. unfold bind at 1. rewrite Hloop.
  unfold bind at 1.
  pose proof (checked_insert_heap hashes st1) as Hcall.
  destruct (checked_insert server clock version hashes st1) as [[res|e] st2];
    cbn [snd] in Hcall; [|exact Hcall].
  run_method.
  destruct (Py.getitem res (KStr "status")) as [status|e]; [|exact Hcall].
  destruct (Py.contains "408" status) as [[|]|e]; try exact Hcall.
  destruct (Py.eq_str status STATUS_OK); [|exact Hcall].
  now destruct (Py.getitem res (KStr "data")).
Qed.

(** C10 (as the code has it).  Let every record of the list carry an
    [imdbid] that is a string.  Whatever [insert_movie_hash] then returns
    or raises, in the state it leaves each record of the list is the
    caller's record with [imdbid] bound to the old value after
    [replace('tt', '')], a string in which no [tt] is left; every other
    key of the record is bound as before, and the dictionaries that are
    not in the list are untouched.  This holds as well when one
    dictionary occurs twice in the list. *)
Theorem C10_insert_rewrites_callers_records (hashes : list nat) (st : state) :
  (forall a, In a hashes -> has_str_imdbid (heap st a)) ->
  let st' := snd (insert_movie_hash server clock version hashes st) in
  (forall a, In a hashes ->
     exists s,
       Dict.get (KStr "imdbid") (heap st a) = Some (PStr s)
       /\ heap st' a = Dict.set (KStr "imdbid") (PStr (strip_tt s)) (heap st a)
       /\ Dict.get (KStr "imdbid") (heap st' a) = Some (PStr (strip_tt s))
       /\ PyStr.contains "tt" (strip_tt s) = false
       /\ forall k, Dict.key_eqb k (KStr "imdbid") = false ->
                    Dict.get k (heap st' a) = Dict.get k (heap st a))
  /\ (forall a, ~ In a hashes -> heap st' a = heap st a).
Proof.
  intros Hall st'.
  destruct (reformat_imdbids_all hashes st Hall) as (h & Hloop & Hh).
  assert (Hheap : heap st' = h).
  { unfold st'. now rewrite (insert_movie_hash_heap _ _ _ Hloop). }
  split.
  - intros a Ha. destruct (Hall a Ha) as [s Hs]. exists s.
    assert (Hset : heap st' a
                   = Dict.set (KStr "imdbid") (PStr (strip_tt s)) (heap st a)).
    { rewrite Hheap, Hh.
      replace (existsb (Nat.eqb a) hashes) with true.
      - unfold strip_record. now rewrite Hs.
      - symmetry. apply existsb_exists. exists a.
        split; [exact Ha | apply Nat.eqb_refl]. }
    repeat split.
    + exact Hs.
    + exact Hset.
    + rewrite Hset. apply DictFacts.get_set_same.
    + apply ReplaceFacts.rep_no_tt.
    + intros k Hk. rewrite Hset. now apply DictFacts.get_set_other.
  - intros a Ha. rewrite Hheap, Hh.
    destruct (existsb (Nat.eqb a) hashes) eqn:E; [|reflexivity].
    apply existsb_exists in E. destruct E as (b & Hb & Hab).
    apply Nat.eqb_eq in Hab. subst b. contradiction.
Qed.

End InsertFacts.

(* ================================================================== *)
(** * The session: [is_token_expired] and [register] *)

Section SessionFacts.

Variable server : list rpc_call -> rpc_call -> outcome pyval.
Variable clock : nat -> Z.
Variable version : string.

(** The session is valid exactly when there is a token, there is a time
    of last query, and the clock is less than [TOKEN_EXPIRATION] after
    that time. *)
Lemma is_valid_iff (st : state) :
  is_valid clock st = true
  <-> token st <> PNone
      /\ exists t, last_query_time st = Some t
                   /\ clock (ticks st) - t < TOKEN_EXPIRATION.
Proof.
  unfold is_valid, is_token_expired, datetime_now. run_method.
  destruct (token st) eqn:Htok;
    try (destruct (last_query_time st) as [t|] eqn:Ht; cbn [fst];
         [ destruct (t + TOKEN_EXPIRATION <=? clock (ticks st)) eqn:Hle;
           cbn [fst negb];
           [ apply Z.leb_le in Hle; split;
             [ discriminate
             | intros [_ (t' & [= <-] & Hlt)]; lia ]
           | apply Z.leb_gt in Hle; split;
             [ intros _; split; [discriminate | exists t; split; [reflexivity | lia]]
             | reflexivity ] ]
         | split; [discriminate | intros [_ (t' & [=] & _)]] ]).
  cbn [fst negb]. split; [discriminate | intros [H _]; congruence].
Qed.

(** [is_token_expired] answers, and at most reads the clock. *)
Lemma is_token_expired_runs (st : state) :
  exists b n, is_token_expired clock st = (Return b, with_ticks n st).
Proof.
  assert (Hsame : with_ticks (ticks st) st = st) by now destruct st.
  unfold is_token_expired, datetime_now. run_method.
  destruct (token st);
    try (exists true, (ticks st); now rewrite Hsame);
    (destruct (last_query_time st) as [t|];
     [ destruct (t + TOKEN_EXPIRATION <=? clock (ticks st));
       eexists _, (S (ticks st)); reflexivity
     | exists true, (ticks st); now rewrite Hsame ]).
Qed.

(** A login the service accepts with a token: the token is stored, the
    time of the last query is not touched. *)
Lemma register_logs_in (st : state) (d : list (pykey * pyval)) (tok : pyval) :
  is_valid clock st = false ->
  server (calls st) (LogIn (user st) (password st) "en" (USER_AGENT version))
  = Return (PDict d) ->
  Dict.get (KStr "token") d = Some tok ->
  exists n,
    register server clock version st
    = (Return tt,
       with_token tok
         (with_calls
            (LogIn (user st) (password st) "en" (USER_AGENT version)
               :: calls st)
            (with_ticks n st))).
Proof.
  intros Hinvalid Hserver Htok. unfold is_valid in Hinvalid.
  destruct (is_token_expired_runs st) as (b & n & Hexp).
  rewrite Hexp in Hinvalid. cbn [fst] in Hinvalid.
  destruct b; [|discriminate].
  exists n. unfold register. unfold bind at 1. rewrite Hexp.
  unfold call_server. run_method.
  cbn [calls user password with_ticks]. rewrite Hserver.
  cbn [Py.contains Py.getitem]. unfold Dict.mem. rewrite Htok.
  reflexivity.
Qed.

(** C7 (as the code has it).  The session is valid, that is
    [is_token_expired] answers [False], iff the token is present, the
    time of the last query is present, and now minus that time is
    strictly less than 14 minutes.  So it is not valid right after the
    construction without a state file.  Once the time of the query is
    recorded after a successful login, as [get_infos] and
    [insert_movie_hash] do right after [register], the session is valid
    as long as the clock stays within 14 minutes of that time; and it is
    not valid once 14 minutes have passed since the recorded time.  A
    successful login by [register] stores the token and leaves the time
    of the last query as it was: when no time was recorded before, the
    session is still not valid right after the login. *)
Theorem C7_session_validity :
  TOKEN_EXPIRATION = 14 * 60 * 1000000
  /\ (forall st,
        is_valid clock st = true
        <-> token st <> PNone
            /\ exists t, last_query_time st = Some t
                         /\ clock (ticks st) - t < TOKEN_EXPIRATION)
  /\ (forall user password objects,
        is_valid clock (init user password None objects) = false)
  /\ (forall st d tok,
        is_valid clock st = false ->
        server (calls st)
               (LogIn (user st) (password st) "en" (USER_AGENT version))
        = Return (PDict d) ->
        Dict.get (KStr "token") d = Some tok ->
        tok <> PNone ->
        exists st2 t,
          bind (register server clock version)
               (fun _ => bind (datetime_now clock)
                            (fun now => modify (with_last_query_time (Some now))))
               st
          = (Return tt, st2)
          /\ token st2 = tok
          /\ last_query_time st2 = Some t
          /\ (clock (ticks st2) - t < TOKEN_EXPIRATION ->
              is_valid clock st2 = true))
  /\ (forall st t,
        last_query_time st = Some t ->
        TOKEN_EXPIRATION <= clock (ticks st) - t ->
        is_valid clock st = false)
  /\ (forall st d tok,
        is_valid clock st = false ->
        server (calls st)
               (LogIn (user st) (password st) "en" (USER_AGENT version))
        = Return (PDict d) ->
        Dict.get (KStr "token") d = Some tok ->
        exists st1,
          register server clock version st = (Return tt, st1)
          /\ token st1 = tok
          /\ last_query_time st1 = last_query_time st
          /\ (last_query_time st = None -> is_valid clock st1 = false)).
Proof.
  split; [reflexivity|]. split; [exact is_valid_iff|]. split; [reflexivity|].
  split.
  - intros st d tok Hinvalid Hserver Htok Hsome.
    destruct (register_logs_in st d tok Hinvalid Hserver Htok) as (n & Hreg).
    unfold bind at 1. rewrite Hreg.
    unfold datetime_now. run_method.
    eexists _, _. split; [reflexivity|].
    split; [reflexivity|]. split; [reflexivity|].
    intros Hclock. apply is_valid_iff. split; [exact Hsome|].
    eexists. split; [reflexivity | exact Hclock].
  - split.
    + intros st t Ht Hlate.
      destruct (is_valid clock st) eqn:Hv; [|reflexivity].
      apply is_valid_iff in Hv. destruct Hv as [_ (t' & Ht' & Hlt)].
      rewrite Ht in Ht'. injection Ht' as <-. lia.
    + intros st d tok Hinvalid Hserver Htok.
      destruct (register_logs_in st d tok Hinvalid Hserver Htok) as (n & Hreg).
      eexists. split; [exact Hreg|].
      split; [reflexivity|]. split; [reflexivity|].
      intros Hnone.
      match goal with |- is_valid clock ?s = false =>
        destruct (is_valid clock s) eqn:Hv; [|reflexivity] end.
      apply is_valid_iff in Hv. destruct Hv as [_ (t & Ht & _)].
      cbn [last_query_time with_token with_calls with_ticks] in Ht.
      congruence.
Qed.

End SessionFacts.

(* ================================================================== *)
(** * The decoder on an episode *)

Section ParserFacts.

Lemma py_get_field (k : string) (e : list (pykey * pyval)) :
  Py.get (PDict e) (KStr k) = Return (field k e).
Proof.
  unfold field, get_or_none. cbn [Py.get].
  now destruct (Dict.get (KStr k) e).
Qed.

Lemma field_of_get (k : string) (e : list (pykey * pyval)) (v : pyval) :
  Dict.get (KStr k) e = Some v -> field k e = v.
Proof. intros H. unfold field, get_or_none. now rewrite H. Qed.

(** [int] raises nothing but [TypeError] and [ValueError]. *)
Lemma py_int_outcome (v : pyval) :
  (exists n, Py.int v = Return n)
  \/ Py.int v = Raise TypeError \/ Py.int v = Raise ValueError.
Proof.
  destruct v; cbn [Py.int]; eauto.
  destruct (Py.int_of_string s); eauto.
Qed.

Lemma set_bound_value {V} (k : pykey) (v : V) (d : list (pykey * V)) :
  Dict.get k d = Some v -> Dict.set k v d = d.
Proof.
  induction d as [|[k0 v0] d IH]; simpl; [discriminate|].
  destruct (Dict.key_eqb k k0).
  - now intros [= ->].
  - intros H. now rewrite IH.
Qed.

(** The coercion of a field that is bound: the integer when [int]
    returns, the value as it was when [int] raises. *)
Lemma coerce_int_bound (f : string) (r : list (pykey * pyval)) (v : pyval) :
  Dict.get (KStr f) r = Some v ->
  coerce_int f r = Return (Dict.set (KStr f) (coerced v) r).
Proof.
  intros Hv. unfold coerce_int, coerced. cbn [Py.getitem]. rewrite Hv.
  cbn [rbind].
  destruct (py_int_outcome v) as [[n ->]|[-> | ->]];
    [reflexivity | |]; now rewrite (set_bound_value _ _ _ Hv).
Qed.

(** A title cut in fewer than three pieces: with two pieces the second
    one becomes the [serie_title], with one piece nothing is written. *)
Lemma split_title_short (title : string) (r : list (pykey * pyval)) :
  (List.length (PyStr.split dquote title) < 3)%nat ->
  split_title (PStr title) r
  = Return match PyStr.split dquote title with
           | [_; part] =>
               Dict.set (KStr "serie_title") (PStr (PyStr.strip part)) r
           | _ => r
           end.
Proof.
  intros Hshort. unfold split_title, title_part. cbn [Py.split rbind].
  destruct (PyStr.split dquote title) as [|a [|b [|c l]]];
    try reflexivity.
  simpl in Hshort. lia.
Qed.

Lemma parse_entry_short_episode
  (_hash : pykey) (e : list (pykey * pyval)) (title : string) :
  Dict.get (KStr "MovieKind") e = Some (PStr "episode") ->
  Dict.get (KStr "MovieName") e = Some (PStr title) ->
  (Dict.get (KStr "MovieImdbID") e = None
   \/ exists s, Dict.get (KStr "MovieImdbID") e = Some (PStr s)) ->
  (List.length (PyStr.split dquote title) < 3)%nat ->
  parse_entry _hash (PDict e) = Return (short_episode_record e title).
Proof.
  intros Hkind Hname Himdb Hshort. unfold parse_entry.
  assert (Hlen : (0 <? Z.of_nat (List.length e)) = true).
  { destruct e; [discriminate|]. apply Z.ltb_lt. simpl. lia. }
  cbn [Py.len rbind]. rewrite Hlen.
  rewrite !py_get_field. cbn [rbind Py.contains Py.getitem].
  rewrite (field_of_get _ _ _ Hkind). rewrite Hname.
  change (Py.eq_str (PStr "episode") "movie") with false.
  change (Py.eq_str (PStr "episode") "episode") with true.
  unfold Dict.mem, short_episode_record.
  destruct Himdb as [Hi | [s Hi]]; rewrite Hi; cbn [rbind clean_imdbid];
    [| destruct (negb (PyStr.startswith "tt" s)); cbn [rbind] ];
    (rewrite split_title_short by assumption; cbn [rbind];
     erewrite coerce_int_bound by (rewrite !DictFacts.get_set; reflexivity);
     cbn [rbind];
     erewrite coerce_int_bound by (rewrite !DictFacts.get_set; reflexivity);
     reflexivity).
Qed.

Lemma short_episode_record_fields (e : list (pykey * pyval)) (title : string) :
  let r := short_episode_record e title in
  Dict.get (KStr "movie_hash") r = Some (field "MovieHash" e)
  /\ Dict.get (KStr "kind") r = Some (PStr "episode")
  /\ Dict.get (KStr "episode_title") r = None
  /\ Dict.get (KStr "serie_title") r
     = match PyStr.split dquote title with
       | [_; part] => Some (PStr (PyStr.strip part))
       | _ => None
       end
  /\ Dict.get (KStr "season_number") r
     = Some (coerced (field "SeriesSeason" e))
  /\ Dict.get (KStr "episode_number") r
     = Some (coerced (field "SeriesEpisode" e)).
Proof.
  unfold short_episode_record.
  destruct (Dict.get (KStr "MovieImdbID") e) as [[| | |s| | |]|];
    destruct (PyStr.split dquote title) as [|p1 [|p2 [|p3 ps]]];
    repeat split; rewrite ?DictFacts.get_set; reflexivity.
Qed.

(** C8 (as the code has it).  Take a reply with one entry, of kind
    [episode], whose title cuts in fewer than three pieces on the double
    quote (its [MovieImdbID], if any, being a string).  [_parse_dict]
    returns one record for it, and stores the state.  In the record
    [episode_title] is absent; [serie_title] is absent when the title
    has no double quote, and is the stripped text after the quote when
    it has one.  [season_number] and [episode_number] are bound to the
    integer when [int] accepts the value of the reply; when [int] raises
    (on a missing value, [None], or on a string that is no number) they
    stay bound to the value as it was, [None] or the string: the entry
    is not aborted. *)
Theorem C8_episode_with_short_title
  (_hash k : pykey) (e : list (pykey * pyval)) (title : string)
  (t : Z) (st : state) :
  Dict.get (KStr "MovieKind") e = Some (PStr "episode") ->
  Dict.get (KStr "MovieName") e = Some (PStr title) ->
  (Dict.get (KStr "MovieImdbID") e = None
   \/ exists s, Dict.get (KStr "MovieImdbID") e = Some (PStr s)) ->
  (List.length (PyStr.split dquote title) < 3)%nat ->
  Py.to_key (field "MovieHash" e) = Return k ->
  last_query_time st = Some t ->
  exists r,
    _parse_dict [(_hash, PDict e)] st
    = (Return (PDict [(k, PDict r)]),
       with_state_file (Some (Saved t (token st))) st)
    /\ Dict.get (KStr "episode_title") r = None
    /\ Dict.get (KStr "serie_title") r
       = match PyStr.split dquote title with
         | [_; part] => Some (PStr (PyStr.strip part))
         | _ => None
         end
    /\ Dict.get (KStr "season_number") r
       = Some (match Py.int (field "SeriesSeason" e) with
               | Return n => PInt n
               | Raise _ => field "SeriesSeason" e
               end)
    /\ Dict.get (KStr "episode_number") r
       = Some (match Py.int (field "SeriesEpisode" e) with
               | Return n => PInt n
               | Raise _ => field "SeriesEpisode" e
               end).
Proof.
  intros Hkind Hname Himdb Hshort Hkey Htime.
  exists (short_episode_record e title).
  destruct (short_episode_record_fields e title)
    as (Hhash & _ & Hep & Hserie & Hseason & Hepisode).
  repeat split; try assumption.
  unfold _parse_dict, store_state. run_method.
  cbn [Dict.keys map fst parse_loop Py.getitem Dict.get].
  rewrite DictFacts.key_eqb_refl. cbn [rbind].
  rewrite (parse_entry_short_episode _ _ _ Hkind Hname Himdb Hshort).
  cbn [rbind app flatten Py.getitem]. rewrite Hhash. cbn [rbind].
  rewrite Hkey. cbn [rbind Dict.set]. now rewrite Htime.
Qed.

End ParserFacts.

(* ================================================================== *)
(** * From paths to records: [get_files_infos] *)

Section FilesFacts.

Variable server : list rpc_call -> rpc_call -> outcome pyval.
Variable clock : nat -> Z.
Variable fs : string -> option (list byte).
Variable version : string.

(** [get_hash] never raises in this model: it gives [None] or a
    string. *)
Lemma get_hash_shape (path : string) :
  get_hash fs path = Return PNone
  \/ exists s, get_hash fs path = Return (PStr s).
Proof.
  destruct (fs path) as [content|] eqn:Hfs.
  - destruct (Z.of_nat (List.length content) <? 65536 * 2) eqn:Hsmall.
    + left. unfold get_hash. now rewrite Hfs, Hsmall.
    + right. apply Z.ltb_ge in Hsmall.
      destruct (get_hash_large fs path content Hfs)
        as (h1 & f1 & h & f2 & _ & _ & _ & _ & Hrun); [lia|].
      eauto.
  - left. unfold get_hash. now rewrite Hfs.
Qed.

Lemma to_key_get_hash (path : string) :
  rbind (get_hash fs path) Py.to_key = Return (fingerprint_key fs path).
Proof.
  unfold fingerprint_key.
  destruct (get_hash_shape path) as [-> | [s ->]]; reflexivity.
Qed.

(** [_hashs_files] is the comprehension over the pairs (fingerprint of
    the path, path). *)
Lemma hash_files_update (files : list string) :
  forall acc,
    hash_files fs files acc
    = Return (Dict.update acc
                (map (fun path => (fingerprint_key fs path, path)) files)).
Proof.
  induction files as [|path files IH]; intros acc; [reflexivity|].
  cbn [hash_files map]. pose proof (to_key_get_hash path) as Hk.
  destruct (get_hash fs path) as [h|e]; cbn [rbind] in Hk |- *;
    [|discriminate].
  rewrite Hk. cbn [rbind]. rewrite IH. reflexivity.
Qed.

(** A path recorded under a fingerprint is one of the paths given, and
    it has that fingerprint. *)
Lemma hash_files_get (files : list string) (h : pykey) (path : string) :
  Dict.get h (Dict.of_list
                (map (fun path => (fingerprint_key fs path, path)) files))
  = Some path ->
  In path files /\ Dict.key_eqb h (fingerprint_key fs path) = true.
Proof.
  rewrite DictFacts.get_of_list. intros H.
  apply DictFacts.last_binding_in in H. destruct H as (k' & Hin & Hk).
  apply in_map_iff in Hin. destruct Hin as (p & [= <- <-] & Hp).
  now split.
Qed.

Lemma path_key_str (p : option string) (path : string) :
  Dict.key_eqb (KStr path) (path_key p) = true <-> p = Some path.
Proof.
  destruct p as [q|]; cbn [path_key].
  - rewrite DictFacts.key_eqb_str. split.
    + intros H. apply String.eqb_eq in H. now subst.
    + intros [= ->]. apply String.eqb_refl.
  - split; discriminate.
Qed.

Lemma get_or_none_congr (k k' : pykey) (d : list (pykey * pyval)) :
  Dict.key_eqb k k' = true -> get_or_none k d = get_or_none k' d.
Proof.
  intros H. unfold get_or_none. now rewrite (DictFacts.get_congr _ _ _ H).
Qed.

(** The entries of the result that are keyed by a path. *)
Lemma files_hashes_entries
  (files : list string) (infos : list (pykey * pyval))
  (path : string) (v : pyval) :
  let hf := Dict.of_list
              (map (fun path => (fingerprint_key fs path, path)) files) in
  let r := Dict.of_list
             (map (fun _hash =>
                     (path_key (Dict.get _hash hf), get_or_none _hash infos))
                  (Dict.keys infos)) in
  Dict.get (KStr path) r = Some v
  <-> exists h, Dict.get h hf = Some path /\ Dict.get h infos = Some v.
Proof.
  intros hf r. unfold r. rewrite DictFacts.get_of_list. split.
  - intros H. apply DictFacts.last_binding_in in H.
    destruct H as (k' & Hin & Hk).
    apply in_map_iff in Hin. destruct Hin as (h & [= <- <-] & Hh).
    apply path_key_str in Hk. exists h. split; [exact Hk|].
    destruct (DictFacts.in_keys_get _ _ Hh) as [w Hw].
    unfold get_or_none. now rewrite Hw.
  - intros (h & Hpath & Hv).
    destruct (DictFacts.get_some_in_keys _ _ _ Hv) as (h0 & Hin0 & Heq0 & Hv0).
    assert (Hpath0 : Dict.get h0 hf = Some path)
      by now rewrite <- (DictFacts.get_congr _ _ _ Heq0).
    destruct (Dict.last_binding (KStr path) _) as [w|] eqn:Hlast.
    + apply DictFacts.last_binding_in in Hlast.
      destruct Hlast as (k' & Hin & Hk).
      apply in_map_iff in Hin. destruct Hin as (h1 & [= <- <-] & Hh1).
      apply path_key_str in Hk.
      destruct (hash_files_get _ _ _ Hpath0) as [_ Hf0].
      destruct (hash_files_get _ _ _ Hk) as [_ Hf1].
      assert (Heq : Dict.key_eqb h1 h0 = true).
      { rewrite (DictFacts.key_eqb_congr _ _ _ Hf1).
        rewrite DictFacts.key_eqb_sym. exact Hf0. }
      rewrite (get_or_none_congr _ _ _ Heq).
      unfold get_or_none. now rewrite Hv0.
    + exfalso.
      pose proof (DictFacts.last_binding_none _ _ Hlast
                    (path_key (Dict.get h0 hf)) (get_or_none h0 infos)) as Hno.
      rewrite Hpath0 in Hno. cbn [path_key] in Hno.
      rewrite DictFacts.key_eqb_refl in Hno.
      assert (true = false); [|discriminate].
      apply Hno. apply in_map_iff. exists h0. rewrite Hpath0. now split.
Qed.

(** C1 (as the code has it).  When the lookup returns the mapping
    [infos], [get_files_infos] returns a mapping with one entry for each
    fingerprint of [infos], not for each path: a path is a key of the
    result, bound to a record, exactly when it is the path recorded for
    a fingerprint of [infos] that is bound to that record.  The path
    recorded for a fingerprint is one of the paths given and has that
    fingerprint ([hf] below is [_hashs_files], which [hash_files]
    computes).  Hence a path whose file is too small to fingerprint
    has no entry (unless [infos] itself has the key [None]), and a path
    whose fingerprint is not a key of [infos] has no entry. *)
Theorem C1_get_files_infos_by_fingerprint
  (files : list string) (st st' : state) (infos : list (pykey * pyval)) :
  let hf := Dict.of_list
              (map (fun path => (fingerprint_key fs path, path)) files) in
  get_infos server clock version (map Py.of_key (Dict.keys hf)) st
  = (Return (PDict infos), st') ->
  exists r,
    get_files_infos server clock fs version files st = (Return (PDict r), st')
    /\ hash_files fs files [] = Return hf
    /\ (forall path v,
          Dict.get (KStr path) r = Some v
          <-> exists h, Dict.get h hf = Some path /\ Dict.get h infos = Some v)
    /\ (forall h path,
          Dict.get h hf = Some path ->
          In path files /\ Dict.key_eqb h (fingerprint_key fs path) = true)
    /\ (forall path,
          get_hash fs path = Return PNone ->
          Dict.get KNone infos = None ->
          Dict.get (KStr path) r = None)
    /\ (forall path s,
          get_hash fs path = Return (PStr s) ->
          Dict.get (KStr s) infos = None ->
          Dict.get (KStr path) r = None).
Proof.
  intros hf Hinfos.
  assert (Hhf : hash_files fs files [] = Return hf)
    by apply hash_files_update.
  set (r := Dict.of_list
              (map (fun _hash =>
                      (path_key (Dict.get _hash hf), get_or_none _hash infos))
                   (Dict.keys infos))).
  assert (Hentries : forall path v,
             Dict.get (KStr path) r = Some v
             <-> exists h, Dict.get h hf = Some path
                           /\ Dict.get h infos = Some v)
    by (intros; apply files_hashes_entries).
  assert (Hrecorded : forall h path,
             Dict.get h hf = Some path ->
             In path files /\ Dict.key_eqb h (fingerprint_key fs path) = true)
    by (intros; now apply hash_files_get).
  assert (Hno : forall path,
             Dict.get (fingerprint_key fs path) infos = None ->
             Dict.get (KStr path) r = None).
  { intros path Hnone.
    destruct (Dict.get (KStr path) r) as [v|] eqn:Hr; [|reflexivity].
    apply Hentries in Hr. destruct Hr as (h & Hpath & Hv).
    destruct (Hrecorded _ _ Hpath) as [_ Hk].
    rewrite (DictFacts.get_congr _ _ _ Hk) in Hv. congruence. }
  exists r.
  split; [|split; [exact Hhf|split; [exact Hentries|split; [exact Hrecorded|split]]]].
  - unfold get_files_infos. unfold bind at 1. unfold lift at 1.
    rewrite Hhf. unfold bind at 1. rewrite Hinfos.
    destruct infos as [|kv infos']; reflexivity.
  - intros path Hsmall Hnone. apply Hno. unfold fingerprint_key.
    now rewrite Hsmall.
  - intros path s Hs Hnone. apply Hno. unfold fingerprint_key.
    now rewrite Hs.
Qed.

End FilesFacts.

(* ================================================================== *)
(** * The client at work in the small world *)

(** The fingerprint of the file of 500000 bytes. *)
Lemma C9_movie_fingerprint :
  Demo.fs "movie.avi" = Some Demo.movie_bytes
  /\ 131072 <= Z.of_nat (List.length Demo.movie_bytes)
  /\ exists h1 h : Z,
       get_hash Demo.fs "movie.avi" = Return (PStr (PyStr.format_016x h))
       /\ 0 <= h < 2 ^ 64
       /\ String.length (PyStr.format_016x h) = 16%nat.
Proof.
  assert (Hsize : 131072 <= Z.of_nat (List.length Demo.movie_bytes))
    by (unfold Demo.movie_bytes; rewrite repeat_length; lia).
  split; [reflexivity|]. split; [exact Hsize|].
  destruct (C9_get_hash_sixteen_lower_hex Demo.fs "movie.avi"
              Demo.movie_bytes eq_refl)
    as (h1 & h & Hrun & _ & _ & Hh & _ & Hlen & _).
  - exact Hsize.
  - exists h1, h. repeat split; try assumption; lia.
Defined.

(** Two [None] placeholders: nothing is asked of the service. *)
Lemma C3_placeholders_only :
  Forall (fun x => x = PNone) [PNone; PNone]
  /\ get_infos (Demo.server Demo.lookup_reply) Demo.clock Demo.version
       [PNone; PNone] Demo.fresh
     = (Return (PDict []), Demo.fresh).
Proof.
  split; [repeat constructor|].
  apply C3_get_infos_nothing_usable. repeat constructor.
Defined.

(** C3, where the code departs from the specification: with no
    fingerprint [get_infos] does not fail, it returns the empty mapping. *)
Lemma C3_empty_request_returns :
  fst (get_infos (Demo.server Demo.lookup_reply) Demo.clock Demo.version
         [] Demo.fresh)
  = Return (PDict [])
  /\ ~ raises (get_infos (Demo.server Demo.lookup_reply) Demo.clock
                 Demo.version [] Demo.fresh).
Proof.
  split; [reflexivity|]. intros [e He]. discriminate He.
Qed.

(** A data section that is a string comes back as an error object. *)
Lemma C4_string_data_section :
  get_infos (Demo.server Demo.bad_shape_reply) Demo.clock Demo.version
    [PStr Demo.F1] Demo.fresh
  = (Return (PExc (Osdb InvalidResultOpenSutitlesError
                        (Msg "Can't parse <class 'str'>"))),
     snd (checked_lookup (Demo.server Demo.bad_shape_reply) Demo.clock
            Demo.version [PStr Demo.F1] Demo.fresh)).
Proof.
  apply (C4_get_infos_returns_the_error
           (Demo.server Demo.bad_shape_reply) Demo.clock Demo.version
           [PStr Demo.F1] Demo.fresh _ Demo.bad_shape_reply (PStr "oops")).
  - discriminate.
  - reflexivity.
  - reflexivity.
  - reflexivity.
  - discriminate.
  - discriminate.
Defined.

(** The two operations on the status [401 Unauthorized]: the lookup
    raises the error of the table, the insert returns [None]. *)
Lemma C5_unauthorized_status :
  get_infos (Demo.server Demo.unauthorized_reply) Demo.clock Demo.version
    [PStr Demo.F1] Demo.fresh
  = (Raise (Osdb UnauthorizedOpenSutitlesError (Msg "401 Unauthorized")),
     snd (checked_lookup (Demo.server Demo.unauthorized_reply) Demo.clock
            Demo.version [PStr Demo.F1] Demo.fresh))
  /\ insert_movie_hash (Demo.server Demo.unauthorized_reply) Demo.clock
       Demo.version [O] Demo.fresh
     = (Return PNone,
        snd (checked_insert (Demo.server Demo.unauthorized_reply) Demo.clock
               Demo.version [O]
               (snd (reformat_imdbids [O] Demo.fresh)))).
Proof.
  destruct (C5_status_to_error (Demo.server Demo.unauthorized_reply)
              Demo.clock Demo.version) as (_ & Hlookup & Hinsert).
  split.
  - refine (proj1 (Hlookup [PStr Demo.F1] Demo.fresh _
                     Demo.unauthorized_reply "401 Unauthorized" _ _ _) _ _).
    + discriminate.
    + reflexivity.
    + reflexivity.
    + discriminate.
    + discriminate.
  - refine (Hinsert [O] Demo.fresh _ _ Demo.unauthorized_reply
              "401 Unauthorized" _ _ _); reflexivity.
Defined.

(** C5, where the code departs from the specification: on an insert the
    status [401 Unauthorized] raises nothing. *)
Lemma C5_insert_ignores_the_table :
  fst (insert_movie_hash (Demo.server Demo.unauthorized_reply) Demo.clock
         Demo.version [O] Demo.fresh)
  = Return PNone
  /\ ~ raises (insert_movie_hash (Demo.server Demo.unauthorized_reply)
                 Demo.clock Demo.version [O] Demo.fresh).
Proof.
  split; [reflexivity|]. intros [e He]. discriminate He.
Qed.

(** A list whose second record has no [imdbid]. *)
Lemma C6_second_record_without_imdbid :
  exists st',
    insert_movie_hash (Demo.server Demo.lookup_reply) Demo.clock Demo.version
      [O; S O] Demo.fresh
    = (Raise (Osdb OpenSutitlesInvalidParam (Msg "Key imdbid is missing")), st')
    /\ calls st' = calls Demo.fresh
    /\ token st' = token Demo.fresh
    /\ last_query_time st' = last_query_time Demo.fresh.
Proof.
  apply (C6_insert_missing_imdbid (Demo.server Demo.lookup_reply) Demo.clock
           Demo.version [O; S O] Demo.fresh).
  - intros a [<-|[<-|[]]].
    + right. exists "tt0063350". reflexivity.
    + left. reflexivity.
  - exists (S O). split; [simpl; auto | reflexivity].
Defined.

(** C6, where the code departs from the specification: the error raised
    for a record without [imdbid] is [OpenSutitlesInvalidParam], not
    [MandatoryParameterMissing]. *)
Lemma C6_raises_invalid_param :
  fst (insert_movie_hash (Demo.server Demo.lookup_reply) Demo.clock
         Demo.version [S O] Demo.fresh)
  = Raise (Osdb OpenSutitlesInvalidParam (Msg "Key imdbid is missing"))
  /\ forall a,
       fst (insert_movie_hash (Demo.server Demo.lookup_reply) Demo.clock
              Demo.version [S O] Demo.fresh)
       <> Raise (Osdb MandatoryParameterMissing a).
Proof.
  split; [reflexivity|]. intros a H. discriminate H.
Qed.

(** A record given twice, the service being down: the call fails with
    the timeout error, and the caller still sees the record rewritten, its
    [imdbid] without [tt], the other fields as they were. *)
Lemma C10_record_given_twice :
  fst (insert_movie_hash Demo.down Demo.clock Demo.version [O; O] Demo.fresh)
  = Raise (Osdb OpenSutitlesTimeoutError NoArg)
  /\ heap (snd (insert_movie_hash Demo.down Demo.clock Demo.version [O; O]
                  Demo.fresh)) O
     = [ (KStr "moviehash", PStr Demo.F1);
         (KStr "moviebytesize", PStr "500000");
         (KStr "imdbid", PStr "0063350") ].
Proof.
  split; [reflexivity|].
  destruct (C10_insert_rewrites_callers_records
              Demo.down Demo.clock Demo.version [O; O] Demo.fresh)
    as [Hin _].
  - intros a [<-|[<-|[]]]; exists "tt0063350"; reflexivity.
  - destruct (Hin O (or_introl eq_refl)) as (s & Hs & Hset & _).
    injection Hs as <-. rewrite Hset. reflexivity.
Defined.

(** C10, where the code departs from the specification: both records
    carry an [imdbid], the first one a number.  Only [KeyError] is caught
    in the loop, so the call ends with [AttributeError] at the first
    record and the second record keeps its [tt]. *)
Lemma C10_number_as_imdbid_stops_the_loop :
  Dict.mem (KStr "imdbid") (heap Lab.mixed O) = true
  /\ Dict.mem (KStr "imdbid") (heap Lab.mixed (S O)) = true
  /\ fst (insert_movie_hash (Demo.server Demo.lookup_reply) Demo.clock
            Demo.version [O; S O] Lab.mixed)
     = Raise AttributeError
  /\ Dict.get (KStr "imdbid")
       (heap (snd (insert_movie_hash (Demo.server Demo.lookup_reply)
                     Demo.clock Demo.version [O; S O] Lab.mixed)) (S O))
     = Some (PStr "tt0063350")
  /\ PyStr.contains "tt" "tt0063350" = true.
Proof. repeat split. Qed.

(** A first login followed by the recording of the time: the session is
    valid at the next reading of the clock, one second later. *)
Lemma C7_login_then_time_recorded :
  exists st2,
    bind (register (Demo.server Demo.lookup_reply) Demo.clock Demo.version)
         (fun _ => bind (datetime_now Demo.clock)
                      (fun now => modify (with_last_query_time (Some now))))
         Demo.fresh
    = (Return tt, st2)
    /\ token st2 = PStr "tok"
    /\ is_valid Demo.clock st2 = true.
Proof.
  destruct (C7_session_validity (Demo.server Demo.lookup_reply) Demo.clock
              Demo.version) as (_ & _ & _ & Hlogin & _).
  destruct (Hlogin Demo.fresh
              [ (KStr "token", PStr "tok"); (KStr "status", PStr "200 OK") ]
              (PStr "tok") eq_refl eq_refl eq_refl)
    as (st2 & t & Hrun & Htok & Htime & Hvalid).
  - discriminate.
  - exists st2. split; [exact Hrun|]. split; [exact Htok|].
    apply Hvalid. injection Hrun as <-. injection Htime as <-.
    vm_compute. reflexivity.
Defined.

(** C7, where the code departs from the specification: right after a
    successful first login the token is there, yet [is_token_expired]
    still answers [True], no time of last query being recorded by
    [register]. *)
Lemma C7_login_alone_is_not_valid :
  fst (register (Demo.server Demo.lookup_reply) Demo.clock Demo.version
         Demo.fresh)
  = Return tt
  /\ token (snd (register (Demo.server Demo.lookup_reply) Demo.clock
                   Demo.version Demo.fresh))
     = PStr "tok"
  /\ last_query_time (snd (register (Demo.server Demo.lookup_reply)
                             Demo.clock Demo.version Demo.fresh))
     = None
  /\ fst (is_token_expired Demo.clock
            (snd (register (Demo.server Demo.lookup_reply) Demo.clock
                    Demo.version Demo.fresh)))
     = Return true
  /\ is_valid Demo.clock
       (snd (register (Demo.server Demo.lookup_reply) Demo.clock
               Demo.version Demo.fresh))
     = false.
Proof. repeat split. Qed.

(** An episode whose title has one double quote and whose season is no
    number. *)
Lemma C8_episode_with_one_quote :
  exists r,
    _parse_dict [(KStr Demo.F1, PDict Demo.episode)] Demo.stamped
    = (Return (PDict [(KStr Demo.F1, PDict r)]),
       with_state_file (Some (Saved 0 (token Demo.stamped))) Demo.stamped)
    /\ Dict.get (KStr "episode_title") r = None
    /\ Dict.get (KStr "serie_title") r = Some (PStr "Pilot")
    /\ Dict.get (KStr "season_number") r = Some (PStr "one")
    /\ Dict.get (KStr "episode_number") r = Some (PInt 2).
Proof.
  apply (C8_episode_with_short_title (KStr Demo.F1) (KStr Demo.F1)
           Demo.episode (String.append "Lost" (String dquote " Pilot"))
           0 Demo.stamped).
  - reflexivity.
  - reflexivity.
  - left. reflexivity.
  - simpl. lia.
  - reflexivity.
  - reflexivity.
Defined.

(** C8, where the code departs from the specification: the title cuts in
    two pieces, fewer than three, yet [serie_title] is written; the season
    is no number, yet [season_number] is bound to the string. *)
Lemma C8_short_title_still_writes :
  List.length (PyStr.split dquote
                 (String.append "Lost" (String dquote " Pilot"))) = 2%nat
  /\ Py.int (PStr "one") = Raise ValueError
  /\ exists r,
       fst (_parse_dict [(KStr Demo.F1, PDict Demo.episode)] Demo.stamped)
       = Return (PDict [(KStr Demo.F1, PDict r)])
       /\ Dict.get (KStr "serie_title") r = Some (PStr "Pilot")
       /\ Dict.get (KStr "season_number") r = Some (PStr "one").
Proof.
  split; [reflexivity|]. split; [reflexivity|].
  eexists. split; [reflexivity|]. split; reflexivity.
Qed.

(** The batch of the two files, the service matching the first. *)
Lemma C1_two_files :
  exists r,
    get_files_infos (Demo.server Demo.lookup_reply) Demo.clock Demo.fs
      Demo.version ["movie.avi"; "sample.avi"] Demo.fresh
    = (Return (PDict r),
       snd (get_infos (Demo.server Demo.lookup_reply) Demo.clock Demo.version
              [PStr Demo.F1; PNone] Demo.fresh))
    /\ Dict.get (KStr "movie.avi") r = Some (PDict (Demo.record Demo.F1))
    /\ Dict.get (KStr "sample.avi") r = None.
Proof.
  assert (Hsample : get_hash Demo.fs "sample.avi" = Return PNone)
    by (vm_compute; reflexivity).
  assert (Hmovie : fingerprint_key Demo.fs "movie.avi" = KStr Demo.F1)
    by (vm_compute; reflexivity).
  assert (Hkeys :
            map Py.of_key
              (Dict.keys
                 (Dict.of_list
                    (map (fun path => (fingerprint_key Demo.fs path, path))
                         ["movie.avi"; "sample.avi"])))
            = [PStr Demo.F1; PNone])
    by (vm_compute; reflexivity).
  destruct (C1_get_files_infos_by_fingerprint
              (Demo.server Demo.lookup_reply) Demo.clock Demo.fs Demo.version
              ["movie.avi"; "sample.avi"] Demo.fresh
              (snd (get_infos (Demo.server Demo.lookup_reply) Demo.clock
                      Demo.version [PStr Demo.F1; PNone] Demo.fresh))
              [(KStr Demo.F1, PDict (Demo.record Demo.F1))])
    as (r & Hrun & _ & Hentries & _ & Hsmall & _).
  - rewrite Hkeys. reflexivity.
  - exists r. split; [exact Hrun|]. split.
    + apply Hentries. exists (KStr Demo.F1). split; [|reflexivity].
      rewrite DictFacts.get_of_list. cbn [map Dict.last_binding].
      unfold fingerprint_key at 1. rewrite Hsample. rewrite Hmovie.
      reflexivity.
    + apply Hsmall; [exact Hsample | reflexivity].
Defined.

(** C1, where the code departs from the specification: of the two paths
    only the first is a key of the result; the path of the small file has
    no entry at all. *)
Lemma C1_small_file_has_no_entry :
  get_hash Demo.fs "sample.avi" = Return PNone
  /\ fst (get_files_infos (Demo.server Demo.lookup_reply) Demo.clock Demo.fs
            Demo.version ["movie.avi"; "sample.avi"] Demo.fresh)
     = Return (PDict [(KStr "movie.avi", PDict (Demo.record Demo.F1))])
  /\ Dict.mem (KStr "sample.avi")
       [(KStr "movie.avi", PDict (Demo.record Demo.F1))]
     = false.
Proof.
  split; [vm_compute; reflexivity|].
  split; [vm_compute; reflexivity | reflexivity].
Qed.

(* ================================================================== *)
(** * More on the fingerprint *)

Section FingerprintFacts.

Variable fs : string -> option (list byte).

(** [get_hash] gives [None] exactly for the files it cannot open and for
    the files shorter than 131072 bytes; for every other file it returns
    a string, of 16 characters. *)
Theorem get_hash_none_or_string (path : string) :
  (get_hash fs path = Return PNone
   <-> fs path = None
       \/ exists content,
            fs path = Some content
            /\ Z.of_nat (List.length content) < 131072)
  /\ (forall content,
        fs path = Some content ->
        131072 <= Z.of_nat (List.length content) ->
        exists s,
          get_hash fs path = Return (PStr s)
          /\ String.length s = 16%nat).
Proof.
  assert (Hlarge : forall content,
             fs path = Some content ->
             131072 <= Z.of_nat (List.length content) ->
             exists s,
               get_hash fs path = Return (PStr s)
               /\ String.length s = 16%nat).
  { intros content Hfs Hge.
    destruct (get_hash_large fs path content Hfs Hge)
      as (h1 & f1 & h & f2 & _ & _ & Hh & _ & Hrun).
    exists (PyStr.format_016x h). split; [exact Hrun|].
    now destruct (format_016x_64 h Hh) as [Hlen _]. }
  split; [|exact Hlarge]. split.
  - intros Hnone. destruct (fs path) as [content|] eqn:Hfs; [|now left].
    right. exists content. split; [reflexivity|].
    destruct (Z.ltb_spec (Z.of_nat (List.length content)) 131072) as [Hlt|Hge];
      [exact Hlt|].
    destruct (Hlarge content eq_refl Hge) as (s & Hrun & _).
    rewrite Hrun in Hnone. discriminate.
  - intros [Hfs | (content & Hfs & Hlt)]; unfold get_hash; rewrite Hfs.
    + reflexivity.
    + apply Z.ltb_lt in Hlt. change (65536 * 2) with 131072. now rewrite Hlt.
Qed.

Lemma words_sum_firstn (n : nat) :
  forall f g,
    firstn (8 * n) f = firstn (8 * n) g -> words_sum n f = words_sum n g.
Proof.
  induction n as [|n IH]; intros f g Heq; [reflexivity|].
  cbn [words_sum].
  replace (8 * S n)%nat with (8 + 8 * n)%nat in Heq by lia.
  assert (E : forall l : list byte,
             firstn 8 l = firstn 8 (firstn (8 + 8 * n) l))
    by (intros l; rewrite firstn_firstn; f_equal; lia).
  assert (H8 : firstn 8 f = firstn 8 g) by now rewrite (E f), (E g), Heq.
  rewrite H8. f_equal. apply IH.
  rewrite !firstn_skipn_comm. now rewrite Heq.
Qed.

(** The fingerprint depends on nothing but the size of the file, its
    first 65536 bytes and its last 65536 bytes. *)
Theorem get_hash_windows (p q : string) (c d : list byte) :
  fs p = Some c ->
  fs q = Some d ->
  131072 <= Z.of_nat (List.length c) ->
  List.length c = List.length d ->
  firstn (Z.to_nat 65536) c = firstn (Z.to_nat 65536) d ->
  skipn (Z.to_nat (Z.of_nat (List.length c) - 65536)) c
  = skipn (Z.to_nat (Z.of_nat (List.length c) - 65536)) d ->
  get_hash fs p = get_hash fs q.
Proof.
  intros Hp Hq Hsize Hlen Hhead Htail.
  destruct (get_hash_large fs p c Hp Hsize)
    as (h1 & f1 & h & f2 & _ & _ & _ & Hh & Hrun).
  destruct (get_hash_large fs q d Hq ltac:(lia))
    as (k1 & g1 & k & g2 & _ & _ & _ & Hk & Hrun').
  rewrite Hrun, Hrun'. do 3 f_equal. rewrite Hh, Hk.
  rewrite <- Hlen, <- Htail.
  rewrite (words_sum_firstn (Z.to_nat 8192) c d); [reflexivity|].
  replace (8 * Z.to_nat 8192)%nat with (Z.to_nat 65536) by lia.
  exact Hhead.
Qed.

End FingerprintFacts.

Lemma bytes_eqb_eq (a : list byte) :
  forall b, bytes_eqb a b = true -> a = b.
Proof.
  induction a as [|x a IH]; intros [|y b] H; try discriminate; [reflexivity|].
  cbn [bytes_eqb] in H. apply andb_prop in H. destruct H as [Hxy Hab].
  apply Byte.byte_dec_bl in Hxy. subst y. f_equal. now apply IH.
Qed.

(** The three kinds of files of the small world: one large enough, one
    too small, one that is not there. *)
Lemma get_hash_on_three_files :
  (exists s,
     get_hash Demo.fs "movie.avi" = Return (PStr s)
     /\ String.length s = 16%nat)
  /\ get_hash Demo.fs "sample.avi" = Return PNone
  /\ get_hash Demo.fs "missing.avi" = Return PNone.
Proof.
  assert (Hsize : 131072 <= Z.of_nat (List.length Demo.movie_bytes))
    by (unfold Demo.movie_bytes; rewrite repeat_length; lia).
  split; [|split].
  - apply (proj2 (get_hash_none_or_string Demo.fs "movie.avi")
             Demo.movie_bytes eq_refl Hsize).
  - apply (proj1 (get_hash_none_or_string Demo.fs "sample.avi")).
    right. exists Demo.sample_bytes. split; [reflexivity|].
    unfold Demo.sample_bytes. rewrite repeat_length. lia.
  - apply (proj1 (get_hash_none_or_string Demo.fs "missing.avi")).
    left. reflexivity.
Defined.

(** Two files of 500000 bytes that differ in their middle only. *)
Lemma twin_files_same_fingerprint :
  Lab.twin_bytes <> Demo.movie_bytes
  /\ get_hash Lab.fs "movie.avi" = get_hash Lab.fs "twin.avi".
Proof.
  split.
  - intros H.
    assert (Hn : nth_error Lab.twin_bytes (Z.to_nat 200000)
                 = nth_error Demo.movie_bytes (Z.to_nat 200000))
      by now rewrite H.
    vm_compute in Hn. discriminate Hn.
  - apply (get_hash_windows Lab.fs "movie.avi" "twin.avi"
             Demo.movie_bytes Lab.twin_bytes).
    + cbv -[Lab.twin_bytes Demo.movie_bytes Demo.sample_bytes]. reflexivity.
    + cbv -[Lab.twin_bytes Demo.movie_bytes Demo.sample_bytes]. reflexivity.
    + vm_compute. discriminate.
    + apply Nat.eqb_eq. vm_compute. reflexivity.
    + apply bytes_eqb_eq. vm_compute. reflexivity.
    + apply bytes_eqb_eq. vm_compute. reflexivity.
Defined.

(* ================================================================== *)
(** * More on the session and on what a lookup leaves behind *)

Section ImdbFacts.

Lemma prefix_append (p s : string) : String.prefix p (String.append p s) = true.
Proof.
  induction p as [|c p IH]; cbn [String.append String.prefix].
  - now destruct s.
  - destruct (ascii_dec c c) as [_|Hne]; [exact IH | congruence].
Qed.

(** [clean_imdbid] on a string: an id that starts with [tt] is kept;
    any other id is padded with zeros on the left to seven characters and
    gets [tt] in front.  The result starts with [tt] and [clean_imdbid]
    leaves it as it is. *)
Theorem clean_imdbid_normalises (s : string) :
  let r := if PyStr.startswith "tt" s then s
           else String.append "tt" (PyStr.rjust 7 "0" s) in
  clean_imdbid (PStr s) = Return (PStr r)
  /\ PyStr.startswith "tt" r = true
  /\ String.length r
     = (if PyStr.startswith "tt" s then String.length s
        else Nat.max 7 (String.length s) + 2)%nat
  /\ clean_imdbid (PStr r) = Return (PStr r).
Proof.
  intros r.
  assert (Hr : PyStr.startswith "tt" r = true).
  { unfold r. destruct (PyStr.startswith "tt" s) eqn:Hs; [exact Hs|].
    apply prefix_append. }
  split; [|split; [exact Hr|split]].
  - unfold clean_imdbid, r. now destruct (PyStr.startswith "tt" s).
  - unfold r. destruct (PyStr.startswith "tt" s); [reflexivity|].
    rewrite string_length_append. unfold PyStr.rjust.
    rewrite string_length_append, repeat_char_length.
    change (String.length "tt") with 2%nat. lia.
  - unfold clean_imdbid. now rewrite Hr.
Qed.

End ImdbFacts.

Section SessionMore.

Variable server : list rpc_call -> rpc_call -> outcome pyval.
Variable clock : nat -> Z.
Variable version : string.

(** What [store_state] writes, [load_state] reads back: a client built on
    the file has the token and the time of last query of the client that
    wrote it.  On a file that is no JSON the client starts with no token
    and no time of last query. *)
Theorem store_then_load
  (st : state) (t : Z) (user password : string)
  (objects : nat -> list (pykey * pyval)) :
  last_query_time st = Some t ->
  fst (store_state st) = Return tt
  /\ token (init user password (state_file (snd (store_state st))) objects)
     = token st
  /\ last_query_time
       (init user password (state_file (snd (store_state st))) objects)
     = Some t
  /\ token (init user password (Some Garbage) objects) = PNone
  /\ last_query_time (init user password (Some Garbage) objects) = None.
Proof.
  intros Ht. unfold init, load_state, store_state. run_method. rewrite Ht.
  cbn. repeat split.
Qed.

Lemma register_valid (st : state) :
  is_valid clock st = true ->
  register server clock version st = (Return tt, with_ticks (S (ticks st)) st).
Proof.
  intros Hvalid.
  unfold is_valid, is_token_expired, datetime_now, bind, get_state, ret
    in Hvalid.
  unfold register, is_token_expired, datetime_now. run_method.
  destruct (token st); try discriminate Hvalid;
    (destruct (last_query_time st) as [t|]; [|discriminate Hvalid];
     cbn [fst] in Hvalid;
     destruct (t + TOKEN_EXPIRATION <=? clock (ticks st));
     [discriminate Hvalid | reflexivity]).
Qed.

(** With a valid session [register] asks nothing of the service: it
    reads the clock and returns, the calls issued, the token and the time
    of last query being as before. *)
Theorem register_keeps_valid_session (st : state) :
  is_valid clock st = true ->
  register server clock version st = (Return tt, with_ticks (S (ticks st)) st)
  /\ calls (snd (register server clock version st)) = calls st
  /\ token (snd (register server clock version st)) = token st
  /\ last_query_time (snd (register server clock version st))
     = last_query_time st.
Proof.
  intros Hvalid. rewrite (register_valid st Hvalid). repeat split.
Qed.

(** Nothing on the way to the service writes the state file. *)
Lemma is_token_expired_file (st : state) :
  state_file (snd (is_token_expired clock st)) = state_file st.
Proof.
  unfold is_token_expired, datetime_now. run_method.
  destruct (token st); try reflexivity;
    destruct (last_query_time st) as [t|]; try reflexivity;
    now destruct (t + TOKEN_EXPIRATION <=? clock (ticks st)).
Qed.

Lemma register_file (st : state) :
  state_file (snd (register server clock version st)) = state_file st.
Proof.
  unfold register. unfold bind at 1.
  pose proof (is_token_expired_file st) as Hexp.
  destruct (is_token_expired clock st) as [[[|]|e] st1]; cbn [snd] in Hexp;
    [| exact Hexp | exact Hexp].
  unfold call_server. run_method.
  destruct (server (calls st1) _) as [result|e]; cbn [state_file with_calls].
  - destruct result; cbn [Py.contains]; try (now destruct (is_socket_timeout _));
      try exact Hexp.
    + destruct (PyStr.contains "token" s); cbn [Py.getitem Py.key_index];
        [now destruct (is_socket_timeout _) | exact Hexp].
    + destruct (existsb _ l); cbn [Py.getitem Py.key_index];
        [now destruct (is_socket_timeout _) | exact Hexp].
    + destruct (Dict.mem (KStr "token") d); [|exact Hexp].
      cbn [Py.getitem].
      destruct (Dict.get (KStr "token") d); [exact Hexp|].
      now destruct (is_socket_timeout _).
  - now destruct (is_socket_timeout e).
Qed.

Lemma checked_lookup_file (movie_hash : list pyval) (st : state) :
  state_file (snd (checked_lookup server clock version movie_hash st))
  = state_file st.
Proof.
  unfold checked_lookup. unfold try_except, bind at 1.
  pose proof (register_file st) as Hreg.
  destruct (register server clock version st) as [[[]|e] st1];
    cbn [snd] in Hreg.
  - unfold datetime_now, call_server. run_method.
    destruct (server _ _) as [res|e];
      cbn [snd state_file with_calls with_ticks with_last_query_time];
      [exact Hreg|].
    unfold raise.
    destruct (is_socket_timeout e); [exact Hreg|].
    destruct e; try exact Hreg; try (now destruct (is_socket_error _)).
    now destruct (errcode =? 503).
  - unfold raise.
    destruct (is_socket_timeout e); [exact Hreg|].
    destruct e; try exact Hreg; try (now destruct (is_socket_error _)).
    now destruct (errcode =? 503).
Qed.

(** [_parse_dict] either raises and leaves the state as it was, or
    returns a mapping and writes the session to the state file. *)
Lemma parse_dict_cases (d : list (pykey * pyval)) (st : state) :
  (exists e, _parse_dict d st = (Raise e, st))
  \/ (exists t flat,
        last_query_time st = Some t
        /\ _parse_dict d st
           = (Return (PDict flat),
              with_state_file (Some (Saved t (token st))) st)).
Proof.
  unfold _parse_dict, store_state. run_method.
  destruct (parse_loop (Dict.keys d) (PDict d) []) as [ret_list|e];
    [|left; eauto].
  destruct (flatten ret_list []) as [flat|e]; [|left; eauto].
  destruct (last_query_time st) as [t|]; [|left; eauto].
  right. exists t, flat. now split.
Qed.

(** So does the decoding of a reply, which may also return the error
    object, the state being as it was. *)
Lemma decode_reply_cases (res : pyval) (st : state) :
  (exists e, decode_reply res st = (Raise e, st))
  \/ (exists e, decode_reply res st = (Return (PExc e), st))
  \/ (exists t flat,
        last_query_time st = Some t
        /\ decode_reply res st
           = (Return (PDict flat),
              with_state_file (Some (Saved t (token st))) st)).
Proof.
  unfold decode_reply. run_method.
  destruct (Py.getitem res (KStr "status")) as [status|e]; [|left; eauto].
  destruct (Py.eq_str status STATUS_OK).
  - destruct (Py.getitem res (KStr "data")) as [datas|e]; [|left; eauto].
    unfold decode_data.
    destruct datas; try solve [right; left; unfold ret; eauto].
    + unfold bind, lift. destruct (rekey l []) as [d|e]; [|left; eauto].
      destruct (parse_dict_cases d st) as [H|H]; [left | right; right]; exact H.
    + destruct (parse_dict_cases d st) as [H|H]; [left | right; right]; exact H.
  - destruct (Py.truthy status); [|left; eauto].
    destruct (Py.split status " ") as [parts|e]; [|left; eauto].
    destruct (Py.nth_str parts 0) as [code|e]; [|left; eauto].
    destruct (status_exception ERROR_STATUS_EXCEPTIONS code), status;
      left; eauto.
Qed.

Lemma get_infos_usable (movie_hash : list pyval) (st : state) :
  usable movie_hash <> [] ->
  get_infos server clock version movie_hash st
  = bind (checked_lookup server clock version (usable movie_hash))
         decode_reply st.
Proof.
  intros Husable. unfold get_infos. fold (usable movie_hash).
  destruct movie_hash as [|x l]; [now contradiction Husable|].
  cbn [List.length Nat.eqb].
  destruct (usable (x :: l)) as [|y l'] eqn:Hf; [now contradiction Husable|].
  reflexivity.
Qed.

Lemma get_infos_nothing (movie_hash : list pyval) (st : state) :
  usable movie_hash = [] ->
  get_infos server clock version movie_hash st = (Return (PDict []), st).
Proof.
  intros Hnone. unfold get_infos. fold (usable movie_hash).
  destruct (List.length movie_hash =? 0)%nat; [reflexivity|].
  now rewrite Hnone.
Qed.

Lemma lookup_returned
  (movie_hash : list pyval) (st st' : state) (infos : list (pykey * pyval)) :
  usable movie_hash <> [] ->
  get_infos server clock version movie_hash st = (Return (PDict infos), st') ->
  exists t,
    last_query_time st' = Some t
    /\ state_file st' = Some (Saved t (token st')).
Proof.
  intros Husable Hrun. rewrite (get_infos_usable _ _ Husable) in Hrun.
  unfold bind in Hrun.
  destruct (checked_lookup server clock version (usable movie_hash) st)
    as [[res|e] st1]; [|discriminate Hrun].
  destruct (decode_reply_cases res st1)
    as [[e He]|[[e He]|(t & flat & Ht & Hd)]];
    rewrite ?He, ?Hd in Hrun; try discriminate Hrun.
  injection Hrun as _ <-. exists t. now split.
Qed.

(** A lookup that returns a mapping made of a reply has written the
    session to the state file: the file holds the token and the time of
    last query the client now has. *)
Theorem lookup_persists_session
  (movie_hash : list pyval) (st st' : state) (infos : list (pykey * pyval)) :
  usable movie_hash <> [] ->
  get_infos server clock version movie_hash st = (Return (PDict infos), st') ->
  exists t,
    last_query_time st' = Some t
    /\ state_file st' = Some (Saved t (token st')).
Proof. apply lookup_returned. Qed.

(** A lookup that does not return a mapping, because it raised or because
    it returned the error object, has not written the state file. *)
Theorem lookup_failure_keeps_state_file (movie_hash : list pyval) (st : state) :
  (forall infos,
     fst (get_infos server clock version movie_hash st) <> Return (PDict infos)) ->
  state_file (snd (get_infos server clock version movie_hash st))
  = state_file st.
Proof.
  intros Hfail.
  destruct (usable movie_hash) as [|x l] eqn:Hu.
  - now rewrite (get_infos_nothing _ _ Hu).
  - assert (Husable : usable movie_hash <> []) by (rewrite Hu; discriminate).
    rewrite (get_infos_usable _ _ Husable) in Hfail |- *.
    unfold bind in Hfail |- *.
    pose proof (checked_lookup_file (usable movie_hash) st) as Hfile.
    destruct (checked_lookup server clock version (usable movie_hash) st)
      as [[res|e] st1]; cbn [snd] in Hfile; [|exact Hfile].
    destruct (decode_reply_cases res st1)
      as [[e He]|[[e He]|(t & flat & Ht & Hd)]];
      rewrite ?He, ?Hd in Hfail |- *; try exact Hfile.
    now contradiction (Hfail flat).
Qed.

End SessionMore.

(* ================================================================== *)
(** * The calls issued, and the transport failures *)

Section CallFacts.

Variable server : list rpc_call -> rpc_call -> outcome pyval.
Variable clock : nat -> Z.
Variable version : string.

(** The [try] block of [get_infos] once [register] has returned. *)
Lemma checked_lookup_after_register (movie_hash : list pyval) (st st1 : state) :
  register server clock version st = (Return tt, st1) ->
  checked_lookup server clock version movie_hash st
  = (match server (calls st1) (CheckMovieHash (token_or_false st1) movie_hash) with
    | Return res => Return res
    | Raise e =>
        Raise match e with
              | SocketTimeout => Osdb OpenSutitlesTimeoutError NoArg
              | Osdb OpenSutitlesTimeoutError _ =>
                  Osdb OpenSutitlesTimeoutError NoArg
              | ProtocolError errcode =>
                  if errcode =? 503
                  then Osdb OpenSutitlesServiceUnavailable NoArg
                  else Osdb OpenSutitlesError (Exc e)
              | SocketError _ => Osdb OpenSutitlesNetworkError (StrOf e)
              | _ => Osdb OpenSutitlesError (StrOf e)
              end
    end,
    with_calls (CheckMovieHash (token_or_false st1) movie_hash :: calls st1)
      (stamp clock st1)).
Proof.
  intros Hreg. unfold checked_lookup. unfold try_except, bind at 1.
  rewrite Hreg. unfold datetime_now, call_server, stamp. run_method.
  cbn [calls with_ticks with_last_query_time].
  change (token_or_false
            (with_last_query_time (Some (clock (ticks st1)))
               (with_ticks (S (ticks st1)) st1)))
    with (token_or_false st1).
  destruct (server (calls st1) _) as [res|e]; [reflexivity|].
  destruct e as [| | | | | | | | | | |c a]; try reflexivity.
  - now destruct (errcode =? 503).
  - destruct c; reflexivity.
Qed.

(** The [try] block of [insert_movie_hash] once [register] has
    returned. *)
Lemma checked_insert_after_register (hashes : list nat) (st st1 : state) :
  register server clock version st = (Return tt, st1) ->
  checked_insert server clock version hashes st
  = (match server (calls st1)
            (InsertMovieHash (token_or_false st1) (map (heap st1) hashes)) with
    | Return res => Return res
    | Raise e =>
        Raise match e with
              | SocketTimeout => Osdb OpenSutitlesTimeoutError NoArg
              | Osdb OpenSutitlesTimeoutError _ =>
                  Osdb OpenSutitlesTimeoutError NoArg
              | ProtocolError errcode =>
                  if errcode =? 503
                  then Osdb OpenSutitlesServiceUnavailable NoArg
                  else Osdb OpenSutitlesError (Exc e)
              | _ => Osdb OpenSutitlesError (Exc e)
              end
    end,
    with_calls
      (InsertMovieHash (token_or_false st1) (map (heap st1) hashes) :: calls st1)
      (stamp clock st1)).
Proof.
  intros Hreg. unfold checked_insert. unfold try_except, bind at 1.
  rewrite Hreg. unfold datetime_now, call_server, stamp. run_method.
  cbn [calls heap with_ticks with_last_query_time].
  change (token_or_false
            (with_last_query_time (Some (clock (ticks st1)))
               (with_ticks (S (ticks st1)) st1)))
    with (token_or_false st1).
  destruct (server (calls st1) _) as [res|e]; [reflexivity|].
  destruct e as [| | | | | | | | | | |c a]; try reflexivity.
  - now destruct (errcode =? 503).
  - destruct c; reflexivity.
Qed.

Lemma decode_reply_calls (res : pyval) (st : state) :
  calls (snd (decode_reply res st)) = calls st.
Proof.
  destruct (decode_reply_cases res st)
    as [[e He]|[[e He]|(t & flat & _ & Hd)]];
    rewrite ?He, ?Hd; reflexivity.
Qed.

(** A transport failure of [CheckMovieHash] comes out of [get_infos] as
    one of the module's errors: a timeout as
    [OpenSutitlesTimeoutError], the protocol error 503 as
    [OpenSutitlesServiceUnavailable], any other protocol error as
    [OpenSutitlesError], a socket error as [OpenSutitlesNetworkError],
    anything else as [OpenSutitlesError].  The time of the query is
    recorded all the same, and the state file is not written. *)
Theorem lookup_transport_failure
  (movie_hash : list pyval) (st st1 : state) (e : exn) :
  usable movie_hash <> [] ->
  register server clock version st = (Return tt, st1) ->
  server (calls st1)
         (CheckMovieHash (token_or_false st1) (usable movie_hash))
  = Raise e ->
  get_infos server clock version movie_hash st
  = (Raise match e with
           | SocketTimeout => Osdb OpenSutitlesTimeoutError NoArg
           | Osdb OpenSutitlesTimeoutError _ =>
               Osdb OpenSutitlesTimeoutError NoArg
           | ProtocolError errcode =>
               if errcode =? 503
               then Osdb OpenSutitlesServiceUnavailable NoArg
               else Osdb OpenSutitlesError (Exc e)
           | SocketError _ => Osdb OpenSutitlesNetworkError (StrOf e)
           | _ => Osdb OpenSutitlesError (StrOf e)
           end,
     with_calls
       (CheckMovieHash (token_or_false st1) (usable movie_hash) :: calls st1)
       (stamp clock st1))
  /\ last_query_time (snd (get_infos server clock version movie_hash st))
     = Some (clock (ticks st1))
  /\ state_file (snd (get_infos server clock version movie_hash st))
     = state_file st1.
Proof.
  intros Husable Hreg Hfail.
  assert (Hrun : get_infos server clock version movie_hash st
                 = (Raise match e with
                          | SocketTimeout => Osdb OpenSutitlesTimeoutError NoArg
                          | Osdb OpenSutitlesTimeoutError _ =>
                              Osdb OpenSutitlesTimeoutError NoArg
                          | ProtocolError errcode =>
                              if errcode =? 503
                              then Osdb OpenSutitlesServiceUnavailable NoArg
                              else Osdb OpenSutitlesError (Exc e)
                          | SocketError _ =>
                              Osdb OpenSutitlesNetworkError (StrOf e)
                          | _ => Osdb OpenSutitlesError (StrOf e)
                          end,
                    with_calls
                      (CheckMovieHash (token_or_false st1) (usable movie_hash)
                         :: calls st1)
                      (stamp clock st1))).
  { rewrite (get_infos_usable server clock version _ _ Husable). unfold bind.
    rewrite (checked_lookup_after_register _ _ _ Hreg). now rewrite Hfail. }
  rewrite Hrun. repeat split.
Qed.

(** A transport failure of [InsertMovieHash]: as for the lookup, but a
    socket error comes out as the plain [OpenSutitlesError], built from
    the exception itself. *)
Theorem insert_transport_failure
  (hashes : list nat) (st st0 st1 : state) (e : exn) :
  reformat_imdbids hashes st = (Return tt, st0) ->
  register server clock version st0 = (Return tt, st1) ->
  server (calls st1)
         (InsertMovieHash (token_or_false st1) (map (heap st1) hashes))
  = Raise e ->
  insert_movie_hash server clock version hashes st
  = (Raise match e with
           | SocketTimeout => Osdb OpenSutitlesTimeoutError NoArg
           | Osdb OpenSutitlesTimeoutError _ =>
               Osdb OpenSutitlesTimeoutError NoArg
           | ProtocolError errcode =>
               if errcode =? 503
               then Osdb OpenSutitlesServiceUnavailable NoArg
               else Osdb OpenSutitlesError (Exc e)
           | _ => Osdb OpenSutitlesError (Exc e)
           end,
     with_calls
       (InsertMovieHash (token_or_false st1) (map (heap st1) hashes)
          :: calls st1)
       (stamp clock st1)).
Proof.
  intros Hloop Hreg Hfail. unfold insert_movie_hash. unfold bind at 1.
  rewrite Hloop. unfold bind at 1.
  rewrite (checked_insert_after_register _ _ _ Hreg). now rewrite Hfail.
Qed.

(** What is left of [insert_movie_hash] after its [try] block changes no
    state. *)
Lemma insert_movie_hash_state (hashes : list nat) (st st0 : state) :
  reformat_imdbids hashes st = (Return tt, st0) ->
  snd (insert_movie_hash server clock version hashes st)
  = snd (checked_insert server clock version hashes st0).
Proof.
  intros Hloop. unfold insert_movie_hash. unfold bind at 1. rewrite Hloop.
  unfold bind at 1.
  destruct (checked_insert server clock version hashes st0) as [[res|e] st2];
    [|reflexivity].
  run_method.
  destruct (Py.getitem res (KStr "status")) as [status|e]; [|reflexivity].
  destruct (Py.contains "408" status) as [[|]|e]; try reflexivity.
  destruct (Py.eq_str status STATUS_OK); [|reflexivity].
  now destruct (Py.getitem res (KStr "data")).
Qed.

(** The records [insert_movie_hash] sends are the caller's records after
    the rewriting: each goes out with its [imdbid] without [tt].  The
    insert is the one call issued once [register] has returned. *)
Theorem insert_sends_rewritten_records
  (hashes : list nat) (st st0 st1 : state) :
  (forall a, In a hashes -> has_str_imdbid (heap st a)) ->
  reformat_imdbids hashes st = (Return tt, st0) ->
  register server clock version st0 = (Return tt, st1) ->
  calls (snd (insert_movie_hash server clock version hashes st))
  = InsertMovieHash (token_or_false st1)
      (map (fun a => strip_record (heap st a)) hashes)
    :: calls st1
  /\ Forall (fun d => exists s,
                 Dict.get (KStr "imdbid") d = Some (PStr s)
                 /\ PyStr.contains "tt" s = false)
       (map (fun a => strip_record (heap st a)) hashes).
Proof.
  intros Hall Hloop Hreg. split.
  - rewrite (insert_movie_hash_state _ _ _ Hloop).
    rewrite (checked_insert_after_register _ _ _ Hreg). cbn [snd calls with_calls].
    f_equal. f_equal. apply map_ext_in. intros a Ha.
    pose proof (register_heap server clock version st0) as Hheap.
    rewrite Hreg in Hheap. cbn [snd] in Hheap. rewrite Hheap.
    destruct (reformat_imdbids_all hashes st Hall) as (h & Hrun & Hh).
    rewrite Hloop in Hrun. injection Hrun as ->. cbn [heap with_heap].
    rewrite Hh.
    replace (existsb (Nat.eqb a) hashes) with true; [reflexivity|].
    symmetry. apply existsb_exists. exists a. split; [exact Ha|].
    apply Nat.eqb_refl.
  - apply Forall_forall. intros d Hd. apply in_map_iff in Hd.
    destruct Hd as (a & <- & Ha). destruct (Hall a Ha) as [s Hs].
    exists (strip_tt s). unfold strip_record. rewrite Hs. split.
    + apply DictFacts.get_set_same.
    + apply ReplaceFacts.rep_no_tt.
Qed.

End CallFacts.

(* ================================================================== *)
(** * Logins, and lookups that ask nothing *)

Section FlowFacts.

Variable server : list rpc_call -> rpc_call -> outcome pyval.
Variable clock : nat -> Z.
Variable fs : string -> option (list byte).
Variable version : string.

(** [register] on a session that is not valid, by what the service
    answers to the login. *)
Lemma register_expired (st : state) :
  is_valid clock st = false ->
  exists n,
    is_token_expired clock st = (Return true, with_ticks n st).
Proof.
  intros Hinvalid. unfold is_valid in Hinvalid.
  destruct (is_token_expired_runs clock st) as (b & n & Hexp).
  rewrite Hexp in Hinvalid. cbn [fst] in Hinvalid.
  destruct b; [|discriminate]. eauto.
Qed.

Lemma register_login_times_out (st : state) :
  is_valid clock st = false ->
  server (calls st) (LogIn (user st) (password st) "en" (USER_AGENT version))
  = Raise SocketTimeout ->
  exists n,
    register server clock version st
    = (Raise (Osdb OpenSutitlesTimeoutError NoArg),
       with_calls
         (LogIn (user st) (password st) "en" (USER_AGENT version) :: calls st)
         (with_ticks n st)).
Proof.
  intros Hinvalid Hserver.
  destruct (register_expired st Hinvalid) as (n & Hexp).
  exists n. unfold register. unfold bind at 1. rewrite Hexp.
  unfold call_server. run_method.
  cbn [calls user password with_ticks]. now rewrite Hserver.
Qed.

Lemma register_without_token (st : state) (d : list (pykey * pyval)) :
  is_valid clock st = false ->
  server (calls st) (LogIn (user st) (password st) "en" (USER_AGENT version))
  = Return (PDict d) ->
  Dict.get (KStr "token") d = None ->
  exists n,
    register server clock version st
    = (Return tt,
       with_calls
         (LogIn (user st) (password st) "en" (USER_AGENT version) :: calls st)
         (with_ticks n st)).
Proof.
  intros Hinvalid Hserver Htok.
  destruct (register_expired st Hinvalid) as (n & Hexp).
  exists n. unfold register. unfold bind at 1. rewrite Hexp.
  unfold call_server. run_method.
  cbn [calls user password with_ticks]. rewrite Hserver.
  cbn [Py.contains]. unfold Dict.mem. now rewrite Htok.
Qed.

(** When the login times out, [get_infos] raises
    [OpenSutitlesTimeoutError] without asking for the fingerprints: the
    login is the only call issued, and the token, the time of last query
    and the state file are as before. *)
Theorem lookup_login_timeout (movie_hash : list pyval) (st : state) :
  usable movie_hash <> [] ->
  is_valid clock st = false ->
  server (calls st) (LogIn (user st) (password st) "en" (USER_AGENT version))
  = Raise SocketTimeout ->
  exists st',
    get_infos server clock version movie_hash st
    = (Raise (Osdb OpenSutitlesTimeoutError NoArg), st')
    /\ calls st'
       = LogIn (user st) (password st) "en" (USER_AGENT version) :: calls st
    /\ token st' = token st
    /\ last_query_time st' = last_query_time st
    /\ state_file st' = state_file st.
Proof.
  intros Husable Hinvalid Hserver.
  destruct (register_login_times_out st Hinvalid Hserver) as (n & Hreg).
  eexists. rewrite (get_infos_usable server clock version _ _ Husable).
  unfold bind at 1. unfold checked_lookup. unfold try_except, bind at 1.
  rewrite Hreg. cbn [is_socket_timeout]. unfold raise.
  split; [reflexivity|]. repeat split.
Qed.

(** When the login gives no token, the client has none either and the
    fingerprints are asked for with [False] in the place of the token:
    [get_infos] issues the login, then [CheckMovieHash] with [False], and
    nothing else. *)
Theorem lookup_without_token
  (movie_hash : list pyval) (st : state) (d : list (pykey * pyval)) :
  usable movie_hash <> [] ->
  token st = PNone ->
  server (calls st) (LogIn (user st) (password st) "en" (USER_AGENT version))
  = Return (PDict d) ->
  Dict.get (KStr "token") d = None ->
  calls (snd (get_infos server clock version movie_hash st))
  = CheckMovieHash (PBool false) (usable movie_hash)
    :: LogIn (user st) (password st) "en" (USER_AGENT version)
    :: calls st.
Proof.
  intros Husable Hnone Hserver Htok.
  assert (Hinvalid : is_valid clock st = false).
  { unfold is_valid, is_token_expired. run_method. now rewrite Hnone. }
  destruct (register_without_token st d Hinvalid Hserver Htok) as (n & Hreg).
  rewrite (get_infos_usable server clock version _ _ Husable).
  unfold bind at 1.
  rewrite (checked_lookup_after_register server clock version _ _ _ Hreg).
  assert (Hfalse :
            token_or_false
              (with_calls
                 (LogIn (user st) (password st) "en" (USER_AGENT version)
                    :: calls st) (with_ticks n st))
            = PBool false).
  { unfold token_or_false. cbn [token with_calls with_ticks].
    now rewrite Hnone. }
  rewrite Hfalse.
  destruct (server _ (CheckMovieHash (PBool false) (usable movie_hash)))
    as [res|e]; [|reflexivity].
  rewrite decode_reply_calls. reflexivity.
Qed.


Lemma update_keys_none (kvs : list (pykey * string)) :
  forall acc,
    Forall (fun k => k = KNone) (Dict.keys acc) ->
    Forall (fun kv => fst kv = KNone) kvs ->
    Forall (fun k => k = KNone) (Dict.keys (Dict.update acc kvs)).
Proof.
  unfold Dict.update.
  induction kvs as [|[k v] kvs IH]; intros acc Hacc Hkvs; [exact Hacc|].
  cbn [fold_left]. apply IH; [|now inversion Hkvs].
  assert (Hk : k = KNone) by (inversion Hkvs as [|? ? Hk _]; exact Hk).
  subst k. cbn [fst snd].
  destruct acc as [|[k0 v0] acc]; [repeat constructor|].
  assert (Hk0 : k0 = KNone) by (inversion Hacc as [|? ? Hk0 _]; exact Hk0).
  subst k0. cbn. constructor; [reflexivity | now inversion Hacc].
Qed.

(** When no file of the list can be fingerprinted (the list may be
    empty), [get_files_infos] returns the empty mapping and asks nothing
    of the service: the state, with the calls issued, is as before. *)
Theorem get_files_infos_nothing_to_ask (files : list string) (st : state) :
  (forall path, In path files -> get_hash fs path = Return PNone) ->
  get_files_infos server clock fs version files st = (Return (PDict []), st).
Proof.
  intros Hsmall. unfold get_files_infos. unfold bind at 1, lift at 1.
  rewrite hash_files_update.
  set (hf := Dict.update [] _).
  assert (Hkeys : Forall (fun k => k = KNone) (Dict.keys hf)).
  { apply update_keys_none; [constructor|].
    apply Forall_forall. intros kv Hkv. apply in_map_iff in Hkv.
    destruct Hkv as (path & <- & Hpath). cbn [fst].
    unfold fingerprint_key. now rewrite (Hsmall path Hpath). }
  unfold bind at 1. rewrite get_infos_nothing; [reflexivity|].
  unfold usable. apply filter_all_none.
  apply Forall_forall. intros x Hx. apply in_map_iff in Hx.
  destruct Hx as (k & <- & Hk).
  rewrite Forall_forall in Hkeys. now rewrite (Hkeys k Hk).
Qed.

End FlowFacts.

(* ================================================================== *)
(** * More on the decoder *)

Section DecoderFacts.

Variable server : list rpc_call -> rpc_call -> outcome pyval.
Variable clock : nat -> Z.
Variable version : string.

(** [_parse_dict] on a mapping of one entry, by what the body of the loop
    makes of the entry. *)
Lemma parse_dict_single_returns
  (_hash k : pykey) (v : pyval) (r : list (pykey * pyval))
  (t : Z) (st : state) :
  parse_entry _hash v = Return r ->
  rbind (Py.getitem (PDict r) (KStr "movie_hash")) Py.to_key = Return k ->
  last_query_time st = Some t ->
  _parse_dict [(_hash, v)] st
  = (Return (PDict [(k, PDict r)]),
     with_state_file (Some (Saved t (token st))) st).
Proof.
  intros Hentry Hkey Htime. unfold _parse_dict, store_state. run_method.
  cbn [Dict.keys map fst parse_loop Py.getitem Dict.get].
  rewrite DictFacts.key_eqb_refl. cbn [rbind]. rewrite Hentry.
  cbn [rbind app flatten]. unfold rbind in Hkey.
  destruct (Py.getitem (PDict r) (KStr "movie_hash")) as [mh|e];
    [|discriminate Hkey].
  cbn [rbind]. rewrite Hkey. cbn [rbind Dict.set]. now rewrite Htime.
Qed.

Lemma parse_dict_single_raises
  (_hash : pykey) (v : pyval) (e : exn) (st : state) :
  parse_entry _hash v = Raise e ->
  _parse_dict [(_hash, v)] st = (Raise e, st).
Proof.
  intros Hentry. unfold _parse_dict. run_method.
  cbn [Dict.keys map fst parse_loop Py.getitem Dict.get].
  rewrite DictFacts.key_eqb_refl. cbn [rbind]. now rewrite Hentry.
Qed.

Lemma to_key_of_key (k : pykey) : Py.to_key (Py.of_key k) = Return k.
Proof. now destruct k. Qed.

(** A fingerprint the service does not know comes back with an empty
    entry (an empty list, dictionary or string): its record carries the
    fingerprint and nothing else. *)
Theorem parse_dict_unmatched
  (_hash : pykey) (entry : pyval) (t : Z) (st : state) :
  Py.len entry = Return 0 ->
  last_query_time st = Some t ->
  _parse_dict [(_hash, entry)] st
  = (Return (PDict [(_hash, PDict [(KStr "movie_hash", Py.of_key _hash)])]),
     with_state_file (Some (Saved t (token st))) st).
Proof.
  intros Hlen Htime.
  apply parse_dict_single_returns; [|cbn; apply to_key_of_key|exact Htime].
  unfold parse_entry. now rewrite Hlen.
Qed.

Lemma nonempty_entry (e : list (pykey * pyval)) (k : pykey) (v : pyval) :
  Dict.get k e = Some v -> (0 <? Z.of_nat (List.length e)) = true.
Proof.
  intros H. destruct e; [discriminate|]. apply Z.ltb_lt. simpl. lia.
Qed.

Lemma parse_entry_movie (_hash : pykey) (e : list (pykey * pyval)) :
  Dict.get (KStr "MovieKind") e = Some (PStr "movie") ->
  (Dict.get (KStr "MovieImdbID") e = None
   \/ exists s, Dict.get (KStr "MovieImdbID") e = Some (PStr s)) ->
  parse_entry _hash (PDict e) = Return (movie_record e).
Proof.
  intros Hkind Himdb. unfold parse_entry.
  cbn [Py.len rbind]. rewrite (nonempty_entry _ _ _ Hkind).
  rewrite !py_get_field. cbn [rbind Py.contains Py.getitem].
  rewrite (field_of_get _ _ _ Hkind).
  change (Py.eq_str (PStr "movie") "movie") with true.
  unfold Dict.mem, movie_record, common_fields.
  destruct Himdb as [Hi | [s Hi]]; rewrite Hi; cbn [rbind clean_imdbid];
    [reflexivity|].
  now destruct (negb (PyStr.startswith "tt" s)).
Qed.

(** A reply with one entry of kind [movie] gives one record, whatever
    optional field is missing: the name and the year are those of the
    entry, [None] when the entry has none, the [imdb_id] is there, in
    its normal form, exactly when the entry has a [MovieImdbID], and no
    field of an episode is written. *)
Theorem parse_dict_movie
  (_hash k : pykey) (e : list (pykey * pyval)) (t : Z) (st : state) :
  Dict.get (KStr "MovieKind") e = Some (PStr "movie") ->
  (Dict.get (KStr "MovieImdbID") e = None
   \/ exists s, Dict.get (KStr "MovieImdbID") e = Some (PStr s)) ->
  Py.to_key (field "MovieHash" e) = Return k ->
  last_query_time st = Some t ->
  exists r,
    _parse_dict [(_hash, PDict e)] st
    = (Return (PDict [(k, PDict r)]),
       with_state_file (Some (Saved t (token st))) st)
    /\ Dict.get (KStr "movie_hash") r = Some (field "MovieHash" e)
    /\ Dict.get (KStr "kind") r = Some (PStr "movie")
    /\ Dict.get (KStr "movie_name") r = Some (field "MovieName" e)
    /\ Dict.get (KStr "movie_year") r = Some (field "MovieYear" e)
    /\ Dict.get (KStr "imdb_id") r
       = match Dict.get (KStr "MovieImdbID") e with
         | Some (PStr s) =>
             Some (PStr (if PyStr.startswith "tt" s then s
                         else String.append "tt" (PyStr.rjust 7 "0" s)))
         | _ => None
         end
    /\ Dict.get (KStr "serie_title") r = None
    /\ Dict.get (KStr "season_number") r = None.
Proof.
  intros Hkind Himdb Hkey Htime. exists (movie_record e).
  assert (Hfields :
            Dict.get (KStr "movie_hash") (movie_record e)
            = Some (field "MovieHash" e)
            /\ Dict.get (KStr "kind") (movie_record e) = Some (PStr "movie")
            /\ Dict.get (KStr "movie_name") (movie_record e)
               = Some (field "MovieName" e)
            /\ Dict.get (KStr "movie_year") (movie_record e)
               = Some (field "MovieYear" e)
            /\ Dict.get (KStr "imdb_id") (movie_record e)
               = match Dict.get (KStr "MovieImdbID") e with
                 | Some (PStr s) =>
                     Some (PStr (if PyStr.startswith "tt" s then s
                                 else String.append "tt" (PyStr.rjust 7 "0" s)))
                 | _ => None
                 end
            /\ Dict.get (KStr "serie_title") (movie_record e) = None
            /\ Dict.get (KStr "season_number") (movie_record e) = None).
  { unfold movie_record, common_fields.
    destruct Himdb as [Hi | [s Hi]]; rewrite Hi;
      repeat split; rewrite ?DictFacts.get_set; try reflexivity.
    cbn. now destruct (PyStr.startswith "tt" s). }
  split; [|exact Hfields].
  apply parse_dict_single_returns;
    [now apply parse_entry_movie | | exact Htime].
  cbn [Py.getitem]. destruct Hfields as [-> _]. exact Hkey.
Qed.

(** A title cut in at least three pieces gives both titles. *)
Lemma split_title_full
  (title first serie episode : string) (more : list string)
  (r : list (pykey * pyval)) :
  PyStr.split dquote title = first :: serie :: episode :: more ->
  split_title (PStr title) r
  = Return (Dict.set (KStr "episode_title") (PStr (PyStr.strip episode))
              (Dict.set (KStr "serie_title") (PStr (PyStr.strip serie)) r)).
Proof.
  intros Hsplit. unfold split_title, title_part. cbn [Py.split rbind].
  now rewrite Hsplit.
Qed.

Lemma parse_entry_full_episode
  (_hash : pykey) (e : list (pykey * pyval))
  (title first serie episode : string) (more : list string) :
  Dict.get (KStr "MovieKind") e = Some (PStr "episode") ->
  Dict.get (KStr "MovieName") e = Some (PStr title) ->
  (Dict.get (KStr "MovieImdbID") e = None
   \/ exists s, Dict.get (KStr "MovieImdbID") e = Some (PStr s)) ->
  PyStr.split dquote title = first :: serie :: episode :: more ->
  parse_entry _hash (PDict e) = Return (full_episode_record e serie episode).
Proof.
  intros Hkind Hname Himdb Hsplit. unfold parse_entry.
  cbn [Py.len rbind]. rewrite (nonempty_entry _ _ _ Hkind).
  rewrite !py_get_field. cbn [rbind Py.contains Py.getitem].
  rewrite (field_of_get _ _ _ Hkind). rewrite Hname.
  change (Py.eq_str (PStr "episode") "movie") with false.
  change (Py.eq_str (PStr "episode") "episode") with true.
  unfold Dict.mem, full_episode_record, common_fields.
  destruct Himdb as [Hi | [s Hi]]; rewrite Hi; cbn [rbind clean_imdbid];
    [| destruct (negb (PyStr.startswith "tt" s)); cbn [rbind] ];
    (rewrite (split_title_full _ _ _ _ _ _ Hsplit); cbn [rbind];
     erewrite coerce_int_bound by (rewrite !DictFacts.get_set; reflexivity);
     cbn [rbind];
     erewrite coerce_int_bound by (rewrite !DictFacts.get_set; reflexivity);
     reflexivity).
Qed.

(** A reply with one entry of kind [episode] whose title cuts in at
    least three pieces on the double quote: the record has the second
    piece as [serie_title] and the third as [episode_title], both
    stripped, and the season and episode numbers as integers when [int]
    accepts them. *)
Theorem parse_dict_full_episode
  (_hash k : pykey) (e : list (pykey * pyval))
  (title first serie episode : string) (more : list string)
  (t : Z) (st : state) :
  Dict.get (KStr "MovieKind") e = Some (PStr "episode") ->
  Dict.get (KStr "MovieName") e = Some (PStr title) ->
  (Dict.get (KStr "MovieImdbID") e = None
   \/ exists s, Dict.get (KStr "MovieImdbID") e = Some (PStr s)) ->
  PyStr.split dquote title = first :: serie :: episode :: more ->
  Py.to_key (field "MovieHash" e) = Return k ->
  last_query_time st = Some t ->
  exists r,
    _parse_dict [(_hash, PDict e)] st
    = (Return (PDict [(k, PDict r)]),
       with_state_file (Some (Saved t (token st))) st)
    /\ Dict.get (KStr "serie_title") r = Some (PStr (PyStr.strip serie))
    /\ Dict.get (KStr "episode_title") r = Some (PStr (PyStr.strip episode))
    /\ Dict.get (KStr "season_number") r
       = Some (match Py.int (field "SeriesSeason" e) with
               | Return n => PInt n
               | Raise _ => field "SeriesSeason" e
               end)
    /\ Dict.get (KStr "episode_number") r
       = Some (match Py.int (field "SeriesEpisode" e) with
               | Return n => PInt n
               | Raise _ => field "SeriesEpisode" e
               end).
Proof.
  intros Hkind Hname Himdb Hsplit Hkey Htime.
  exists (full_episode_record e serie episode).
  assert (Hhash : Dict.get (KStr "movie_hash")
                    (full_episode_record e serie episode)
                  = Some (field "MovieHash" e)).
  { unfold full_episode_record, common_fields.
    destruct (Dict.get (KStr "MovieImdbID") e) as [[| | |s| | |]|];
      rewrite ?DictFacts.get_set; reflexivity. }
  split.
  - apply parse_dict_single_returns;
      [now apply (parse_entry_full_episode _ _ title first serie episode more)
      | | exact Htime].
    cbn [Py.getitem]. now rewrite Hhash.
  - unfold full_episode_record, common_fields.
    destruct (Dict.get (KStr "MovieImdbID") e) as [[| | |s| | |]|];
      repeat split; rewrite ?DictFacts.get_set; reflexivity.
Qed.

(** An entry of kind [episode] must have a [MovieName]: without it
    [_parse_dict] raises [KeyError] and writes nothing. *)
Theorem parse_dict_episode_without_name
  (_hash : pykey) (e : list (pykey * pyval)) (st : state) :
  Dict.get (KStr "MovieKind") e = Some (PStr "episode") ->
  Dict.get (KStr "MovieName") e = None ->
  (Dict.get (KStr "MovieImdbID") e = None
   \/ exists s, Dict.get (KStr "MovieImdbID") e = Some (PStr s)) ->
  _parse_dict [(_hash, PDict e)] st
  = (Raise (KeyError (KStr "MovieName")), st).
Proof.
  intros Hkind Hname Himdb. apply parse_dict_single_raises.
  unfold parse_entry.
  cbn [Py.len rbind]. rewrite (nonempty_entry _ _ _ Hkind).
  rewrite !py_get_field. cbn [rbind Py.contains Py.getitem].
  rewrite (field_of_get _ _ _ Hkind). rewrite Hname.
  change (Py.eq_str (PStr "episode") "movie") with false.
  change (Py.eq_str (PStr "episode") "episode") with true.
  unfold Dict.mem.
  destruct Himdb as [Hi | [s Hi]]; rewrite Hi; cbn [rbind clean_imdbid];
    [reflexivity|].
  now destruct (negb (PyStr.startswith "tt" s)).
Qed.

(** The re-keying of a reply that came as a list: the items that are no
    dictionaries are dropped, the others are keyed by their
    [MovieHash]. *)
Lemma rekey_update (l : list pyval) :
  Forall (fun x => is_dict x = true ->
                   exists k, rbind (Py.getitem x (KStr "MovieHash")) Py.to_key
                             = Return k) l ->
  forall acc,
    rekey l acc
    = Return (Dict.update acc
                (map (fun x => (movie_hash_key x, x)) (filter is_dict l))).
Proof.
  induction 1 as [|x l Hx _ IH]; intros acc; [reflexivity|].
  cbn [rekey filter]. destruct x; cbn [is_dict]; try apply IH.
  destruct (Hx eq_refl) as [k Hk]. cbn [map].
  unfold Dict.update. cbn [fold_left fst snd]. fold (Dict.update (V := pyval)).
  unfold movie_hash_key. rewrite Hk.
  unfold rbind in Hk.
  destruct (Py.getitem (PDict d) (KStr "MovieHash")) as [mh|e];
    [|discriminate Hk].
  cbn [rbind]. rewrite Hk. cbn [rbind]. now rewrite IH.
Qed.

(** A reply whose data section is a list is decoded as the reply whose
    data section is the mapping of its dictionaries by their [MovieHash],
    the other items being dropped. *)
Theorem lookup_list_reply
  (movie_hash : list pyval) (st st' : state) (res : pyval) (l : list pyval) :
  usable movie_hash <> [] ->
  checked_lookup server clock version (usable movie_hash) st
  = (Return res, st') ->
  Py.getitem res (KStr "status") = Return (PStr STATUS_OK) ->
  Py.getitem res (KStr "data") = Return (PList l) ->
  Forall (fun x => is_dict x = true ->
                   exists k, rbind (Py.getitem x (KStr "MovieHash")) Py.to_key
                             = Return k) l ->
  get_infos server clock version movie_hash st
  = _parse_dict
      (Dict.of_list (map (fun x => (movie_hash_key x, x)) (filter is_dict l)))
      st'.
Proof.
  intros Husable Hcall Hstatus Hdata Hitems.
  rewrite (get_infos_usable server clock version _ _ Husable).
  unfold bind at 1. rewrite Hcall.
  rewrite (decode_reply_ok _ _ _ Hstatus Hdata).
  unfold decode_data, bind, lift. now rewrite (rekey_update l Hitems).
Qed.

End DecoderFacts.

(* ================================================================== *)
(** * The insert and the state file *)

Section InsertFileFacts.

Variable server : list rpc_call -> rpc_call -> outcome pyval.
Variable clock : nat -> Z.
Variable version : string.

Lemma reformat_imdbids_file (hashes : list nat) :
  forall st, state_file (snd (reformat_imdbids hashes st)) = state_file st.
Proof.
  induction hashes as [|data rest IH]; intros st; [reflexivity|].
  cbn [reformat_imdbids]. unfold bind at 1. unfold try_except.
  run_method. cbn [Py.getitem].
  destruct (Dict.get (KStr "imdbid") (heap st data)) as [v|]; [|reflexivity].
  destruct v; cbn [replace_tt]; try reflexivity.
  rewrite IH. reflexivity.
Qed.

Lemma checked_insert_file (hashes : list nat) (st : state) :
  state_file (snd (checked_insert server clock version hashes st))
  = state_file st.
Proof.
  unfold checked_insert. unfold try_except, bind at 1.
  pose proof (register_file server clock version st) as Hreg.
  destruct (register server clock version st) as [[[]|e] st1];
    cbn [snd] in Hreg.
  - unfold datetime_now, call_server. run_method.
    destruct (server _ _) as [res|e];
      cbn [snd state_file with_calls with_ticks with_last_query_time];
      [exact Hreg|].
    unfold raise.
    destruct (is_socket_timeout e); [exact Hreg|].
    destruct e; try exact Hreg.
    now destruct (errcode =? 503).
  - unfold raise.
    destruct (is_socket_timeout e); [exact Hreg|].
    destruct e; try exact Hreg.
    now destruct (errcode =? 503).
Qed.

(** [insert_movie_hash] never writes the state file, whatever the
    records and whatever the service answers: unlike a lookup, a
    successful insert does not persist the session. *)
Theorem insert_never_writes_state_file (hashes : list nat) (st : state) :
  state_file (snd (insert_movie_hash server clock version hashes st))
  = state_file st.
Proof.
  pose proof (reformat_imdbids_file hashes st) as Hloop.
  destruct (reformat_imdbids hashes st) as [[[]|e] st0] eqn:Hrun;
    cbn [snd] in Hloop.
  - rewrite (insert_movie_hash_state server clock version _ _ _ Hrun).
    now rewrite checked_insert_file.
  - unfold insert_movie_hash. unfold bind at 1. rewrite Hrun. exact Hloop.
Qed.

End InsertFileFacts.

(* ================================================================== *)
(** * The rest of the class at work *)

(** A client that holds a token writes its state; a new client reads it. *)
Lemma stored_session_is_read_back :
  last_query_time Lab.logged = Some 0
  /\ token (init "user" "secret" (state_file (snd (store_state Lab.logged)))
              Demo.objects)
     = PStr "tok"
  /\ last_query_time
       (init "user" "secret" (state_file (snd (store_state Lab.logged)))
          Demo.objects)
     = Some 0.
Proof.
  destruct (store_then_load Lab.logged 0 "user" "secret" Demo.objects eq_refl)
    as (_ & Htok & Htime & _).
  split; [reflexivity|]. split; [exact Htok | exact Htime].
Defined.

(** The service is down, the session is valid: [register] does not
    notice. *)
Lemma valid_session_needs_no_service :
  is_valid Demo.clock Lab.logged = true
  /\ register Demo.down Demo.clock Demo.version Lab.logged
     = (Return tt, with_ticks 1 Lab.logged).
Proof.
  split; [reflexivity|].
  apply (register_keeps_valid_session Demo.down Demo.clock Demo.version
           Lab.logged eq_refl).
Defined.

(** The first lookup of a fresh client leaves the session in the state
    file. *)
Lemma first_lookup_persists :
  exists t,
    last_query_time
      (snd (get_infos (Demo.server Demo.lookup_reply) Demo.clock Demo.version
              [PStr Demo.F1] Demo.fresh))
    = Some t
    /\ state_file
         (snd (get_infos (Demo.server Demo.lookup_reply) Demo.clock
                 Demo.version [PStr Demo.F1] Demo.fresh))
       = Some (Saved t (PStr "tok")).
Proof.
  destruct (lookup_persists_session
              (Demo.server Demo.lookup_reply) Demo.clock Demo.version
              [PStr Demo.F1] Demo.fresh
              (snd (get_infos (Demo.server Demo.lookup_reply) Demo.clock
                      Demo.version [PStr Demo.F1] Demo.fresh))
              [(KStr Demo.F1, PDict (Demo.record Demo.F1))])
    as (t & Htime & Hfile).
  - discriminate.
  - reflexivity.
  - exists t. split; [exact Htime | exact Hfile].
Defined.

(** The status [401 Unauthorized] leaves no trace in the state file. *)
Lemma unauthorized_lookup_writes_nothing :
  state_file
    (snd (get_infos (Demo.server Demo.unauthorized_reply) Demo.clock
            Demo.version [PStr Demo.F1] Demo.fresh))
  = None.
Proof.
  apply (lookup_failure_keeps_state_file
           (Demo.server Demo.unauthorized_reply) Demo.clock Demo.version
           [PStr Demo.F1] Demo.fresh).
  intros infos H. discriminate H.
Defined.

(** The service answers the lookup with the protocol error 503. *)
Lemma lookup_service_unavailable :
  fst (get_infos (Lab.failing (ProtocolError 503)) Demo.clock Demo.version
         [PStr Demo.F1] Demo.fresh)
  = Raise (Osdb OpenSutitlesServiceUnavailable NoArg)
  /\ last_query_time
       (snd (get_infos (Lab.failing (ProtocolError 503)) Demo.clock
               Demo.version [PStr Demo.F1] Demo.fresh))
     = Some 0.
Proof.
  destruct (lookup_transport_failure
              (Lab.failing (ProtocolError 503)) Demo.clock Demo.version
              [PStr Demo.F1] Demo.fresh
              (snd (register (Lab.failing (ProtocolError 503)) Demo.clock
                      Demo.version Demo.fresh))
              (ProtocolError 503))
    as (Hrun & Htime & _).
  - discriminate.
  - reflexivity.
  - reflexivity.
  - rewrite Hrun. split; reflexivity.
Defined.

(** The service answers the insert with a socket error. *)
Lemma insert_socket_error :
  fst (insert_movie_hash (Lab.failing (SocketError "refused")) Demo.clock
         Demo.version [O] Demo.fresh)
  = Raise (Osdb OpenSutitlesError (Exc (SocketError "refused"))).
Proof.
  rewrite (insert_transport_failure
             (Lab.failing (SocketError "refused")) Demo.clock Demo.version
             [O] Demo.fresh
             (snd (reformat_imdbids [O] Demo.fresh))
             (snd (register (Lab.failing (SocketError "refused")) Demo.clock
                     Demo.version (snd (reformat_imdbids [O] Demo.fresh))))
             (SocketError "refused") eq_refl eq_refl eq_refl).
  reflexivity.
Defined.

(** What goes out for the record at address 0. *)
Lemma insert_sends_record_without_tt :
  calls (snd (insert_movie_hash (Demo.server Demo.lookup_reply) Demo.clock
                Demo.version [O] Demo.fresh))
  = [ InsertMovieHash (PStr "tok")
        [ [ (KStr "moviehash", PStr Demo.F1);
            (KStr "moviebytesize", PStr "500000");
            (KStr "imdbid", PStr "0063350") ] ];
      LogIn EmptyString EmptyString "en" "OsdbInfos v1.0" ].
Proof.
  destruct (insert_sends_rewritten_records
              (Demo.server Demo.lookup_reply) Demo.clock Demo.version
              [O] Demo.fresh
              (snd (reformat_imdbids [O] Demo.fresh))
              (snd (register (Demo.server Demo.lookup_reply) Demo.clock
                      Demo.version (snd (reformat_imdbids [O] Demo.fresh)))))
    as [Hcalls _].
  - intros a [<-|[]]. exists "tt0063350". reflexivity.
  - reflexivity.
  - reflexivity.
  - rewrite Hcalls. reflexivity.
Defined.

(** The service is down when a fresh client looks a fingerprint up. *)
Lemma lookup_when_login_times_out :
  exists st',
    get_infos Demo.down Demo.clock Demo.version [PStr Demo.F1] Demo.fresh
    = (Raise (Osdb OpenSutitlesTimeoutError NoArg), st')
    /\ calls st' = [ LogIn EmptyString EmptyString "en" "OsdbInfos v1.0" ]
    /\ token st' = PNone
    /\ last_query_time st' = None
    /\ state_file st' = None.
Proof.
  apply (lookup_login_timeout Demo.down Demo.clock Demo.version
           [PStr Demo.F1] Demo.fresh).
  - discriminate.
  - reflexivity.
  - reflexivity.
Defined.

(** A service that gives no token is asked with [False]. *)
Lemma lookup_with_false_token :
  calls (snd (get_infos (Lab.anonymous Demo.lookup_reply) Demo.clock
                Demo.version [PStr Demo.F1] Demo.fresh))
  = [ CheckMovieHash (PBool false) [PStr Demo.F1];
      LogIn EmptyString EmptyString "en" "OsdbInfos v1.0" ].
Proof.
  apply (lookup_without_token (Lab.anonymous Demo.lookup_reply) Demo.clock
           Demo.version [PStr Demo.F1] Demo.fresh
           [ (KStr "status", PStr "200 OK") ]).
  - discriminate.
  - reflexivity.
  - reflexivity.
  - reflexivity.
Defined.


(** A file too small and a file that is not there: nothing is asked. *)
Lemma small_and_missing_files :
  get_files_infos Demo.down Demo.clock Demo.fs Demo.version
    ["sample.avi"; "missing.avi"] Demo.fresh
  = (Return (PDict []), Demo.fresh).
Proof.
  apply (get_files_infos_nothing_to_ask Demo.down Demo.clock Demo.fs
           Demo.version ["sample.avi"; "missing.avi"] Demo.fresh).
  intros path [<-|[<-|[]]]; vm_compute; reflexivity.
Defined.

(** The entry of a fingerprint the service does not know. *)
Lemma unknown_fingerprint :
  _parse_dict [(KStr Demo.F2, PList [])] Demo.stamped
  = (Return (PDict [(KStr Demo.F2,
                     PDict [(KStr "movie_hash", PStr Demo.F2)])]),
     with_state_file (Some (Saved 0 (token Demo.stamped))) Demo.stamped).
Proof.
  apply (parse_dict_unmatched (KStr Demo.F2) (PList []) 0 Demo.stamped);
    reflexivity.
Defined.

(** A movie of which the service knows the kind only. *)
Lemma movie_with_kind_only :
  exists r,
    _parse_dict
      [(KStr Demo.F1,
        PDict [ (KStr "MovieHash", PStr Demo.F1);
                (KStr "MovieKind", PStr "movie") ])]
      Demo.stamped
    = (Return (PDict [(KStr Demo.F1, PDict r)]),
       with_state_file (Some (Saved 0 (token Demo.stamped))) Demo.stamped)
    /\ Dict.get (KStr "movie_name") r = Some PNone
    /\ Dict.get (KStr "movie_year") r = Some PNone
    /\ Dict.get (KStr "imdb_id") r = None.
Proof.
  destruct (parse_dict_movie (KStr Demo.F1) (KStr Demo.F1)
              [ (KStr "MovieHash", PStr Demo.F1);
                (KStr "MovieKind", PStr "movie") ] 0 Demo.stamped)
    as (r & Hrun & _ & _ & Hname & Hyear & Himdb & _).
  - reflexivity.
  - left. reflexivity.
  - reflexivity.
  - reflexivity.
  - exists r. split; [exact Hrun|]. split; [exact Hname|].
    split; [exact Hyear | exact Himdb].
Defined.

(** An episode with both titles between double quotes. *)
Lemma episode_with_full_title :
  exists r,
    _parse_dict [(KStr Demo.F1, PDict Lab.episode)] Demo.stamped
    = (Return (PDict [(KStr Demo.F1, PDict r)]),
       with_state_file (Some (Saved 0 (token Demo.stamped))) Demo.stamped)
    /\ Dict.get (KStr "serie_title") r = Some (PStr "Lost")
    /\ Dict.get (KStr "episode_title") r = Some (PStr "Pilot: Part 1")
    /\ Dict.get (KStr "season_number") r = Some (PInt 1)
    /\ Dict.get (KStr "episode_number") r = Some (PInt 1).
Proof.
  apply (parse_dict_full_episode (KStr Demo.F1) (KStr Demo.F1) Lab.episode
           (String dquote (String.append "Lost" (String dquote " Pilot: Part 1")))
           EmptyString "Lost" " Pilot: Part 1" [] 0 Demo.stamped).
  - reflexivity.
  - reflexivity.
  - left. reflexivity.
  - reflexivity.
  - reflexivity.
  - reflexivity.
Defined.

(** An episode without a name. *)
Lemma episode_without_name :
  _parse_dict
    [(KStr Demo.F1,
      PDict [ (KStr "MovieHash", PStr Demo.F1);
              (KStr "MovieKind", PStr "episode") ])]
    Demo.stamped
  = (Raise (KeyError (KStr "MovieName")), Demo.stamped).
Proof.
  apply parse_dict_episode_without_name.
  - reflexivity.
  - reflexivity.
  - left. reflexivity.
Defined.

(** The reply that comes as a list, with an item that is no dictionary. *)
Lemma list_reply_is_decoded :
  fst (get_infos (Demo.server Lab.list_reply) Demo.clock Demo.version
         [PStr Demo.F1] Demo.fresh)
  = Return (PDict [(KStr Demo.F1, PDict (Demo.record Demo.F1))]).
Proof.
  rewrite (lookup_list_reply (Demo.server Lab.list_reply) Demo.clock
             Demo.version [PStr Demo.F1] Demo.fresh
             (snd (checked_lookup (Demo.server Lab.list_reply) Demo.clock
                     Demo.version [PStr Demo.F1] Demo.fresh))
             Lab.list_reply [ Demo.movie Demo.F1; PStr "stray" ]).
  - reflexivity.
  - discriminate.
  - reflexivity.
  - reflexivity.
  - reflexivity.
  - repeat constructor.
    + intros _. exists (KStr Demo.F1). reflexivity.
    + discriminate.
Defined.

(* ================================================================== *)
(** * Files with the same fingerprint *)

Section TwinFacts.

Variable server : list rpc_call -> rpc_call -> outcome pyval.
Variable clock : nat -> Z.
Variable fs : string -> option (list byte).
Variable version : string.

Lemma last_binding_snoc {V} (k k' : pykey) (v : V) (kvs : list (pykey * V)) :
  Dict.last_binding k (kvs ++ [(k', v)])
  = if Dict.key_eqb k k' then Some v else Dict.last_binding k kvs.
Proof.
  induction kvs as [|[k0 v0] kvs IH]; cbn [app Dict.last_binding].
  - reflexivity.
  - rewrite IH. destruct (Dict.key_eqb k k'); [reflexivity|].
    reflexivity.
Qed.

(** What [get_files_infos] returns when the lookup returned [infos]. *)
Lemma get_files_infos_run
  (files : list string) (st st' : state) (infos : list (pykey * pyval)) :
  let hf := Dict.of_list
              (map (fun path => (fingerprint_key fs path, path)) files) in
  get_infos server clock version (map Py.of_key (Dict.keys hf)) st
  = (Return (PDict infos), st') ->
  get_files_infos server clock fs version files st
  = (Return (PDict
               (Dict.of_list
                  (map (fun _hash =>
                          (path_key (Dict.get _hash hf),
                           get_or_none _hash infos))
                       (Dict.keys infos)))), st').
Proof.
  intros hf Hinfos. unfold get_files_infos. unfold bind at 1. unfold lift at 1.
  rewrite hash_files_update. unfold bind at 1.
  unfold hf in Hinfos. unfold Dict.of_list at 1 in Hinfos. rewrite Hinfos.
  destruct infos as [|kv infos']; reflexivity.
Qed.

(** Of two paths with the same fingerprint, [get_files_infos] reports
    the later one only: when the list ends with [q], a path [p] other than
    [q] with the fingerprint of [q] is no key of the result. *)
Theorem get_files_infos_same_fingerprint
  (before : list string) (p q : string) (st st' : state)
  (infos : list (pykey * pyval)) :
  let files := (before ++ [q])%list in
  let hf := Dict.of_list
              (map (fun path => (fingerprint_key fs path, path)) files) in
  get_infos server clock version (map Py.of_key (Dict.keys hf)) st
  = (Return (PDict infos), st') ->
  Dict.key_eqb (fingerprint_key fs p) (fingerprint_key fs q) = true ->
  p <> q ->
  exists r,
    get_files_infos server clock fs version files st = (Return (PDict r), st')
    /\ Dict.get (KStr p) r = None
    /\ forall v, Dict.get (fingerprint_key fs q) infos = Some v ->
                 Dict.get (KStr q) r = Some v.
Proof.
  intros files hf Hinfos Hsame Hne. eexists.
  split; [exact (get_files_infos_run files st st' infos Hinfos)|].
  assert (Hlast : forall h,
             Dict.key_eqb h (fingerprint_key fs q) = true ->
             Dict.get h hf = Some q).
  { intros h Hh. unfold hf, files. rewrite DictFacts.get_of_list.
    rewrite map_app. cbn [map]. rewrite last_binding_snoc. now rewrite Hh. }
  split.
  - match goal with |- ?lhs = None => destruct lhs as [v|] eqn:Hr end;
      [|reflexivity].
    apply (files_hashes_entries fs files infos p v) in Hr.
    destruct Hr as (h & Hpath & _). fold hf in Hpath.
    destruct (hash_files_get fs files h p Hpath) as [_ Hk].
    rewrite (Hlast h) in Hpath.
    + congruence.
    + rewrite (DictFacts.key_eqb_congr_r h _ _ Hsame) in Hk. exact Hk.
  - intros v Hv. apply (files_hashes_entries fs files infos q v).
    exists (fingerprint_key fs q). split; [|exact Hv].
    apply Hlast. apply DictFacts.key_eqb_refl.
Qed.

End TwinFacts.

(** The two files of 500000 bytes that differ in the middle: one entry,
    for the second path. *)
Lemma twin_files_one_entry :
  exists r,
    get_files_infos (Demo.server Demo.lookup_reply) Demo.clock Lab.fs
      Demo.version ["movie.avi"; "twin.avi"] Demo.fresh
    = (Return (PDict r),
       snd (get_infos (Demo.server Demo.lookup_reply) Demo.clock Demo.version
              [PStr Demo.F1] Demo.fresh))
    /\ Dict.get (KStr "movie.avi") r = None
    /\ Dict.get (KStr "twin.avi") r = Some (PDict (Demo.record Demo.F1)).
Proof.
  assert (Hmovie : fingerprint_key Lab.fs "movie.avi" = KStr Demo.F1)
    by (vm_compute; reflexivity).
  assert (Htwin : fingerprint_key Lab.fs "twin.avi" = KStr Demo.F1)
    by (vm_compute; reflexivity).
  destruct (get_files_infos_same_fingerprint
              (Demo.server Demo.lookup_reply) Demo.clock Lab.fs Demo.version
              ["movie.avi"] "movie.avi" "twin.avi" Demo.fresh
              (snd (get_infos (Demo.server Demo.lookup_reply) Demo.clock
                      Demo.version [PStr Demo.F1] Demo.fresh))
              [(KStr Demo.F1, PDict (Demo.record Demo.F1))])
    as (r & Hrun & Hfirst & Hsecond).
  - cbn [app map]. rewrite Hmovie, Htwin. reflexivity.
  - rewrite Hmovie, Htwin. reflexivity.
  - discriminate.
  - exists r. split; [exact Hrun|]. split; [exact Hfirst|].
    apply Hsecond. rewrite Htwin. reflexivity.
Defined.
